(** * User file store: entity lifecycle and collection reconciliation

    A shallow embedding of [src/stores/userFileStore.ts] (class [UserFile],
    store [useUserFileStore] with its views [userFiles], [modifiedFiles]
    and [loadedFiles]) and of [src/utils/syncUtil.ts] ([syncEntities] and
    [syncEntitiesV2]).  The view [fileTree] goes through [buildTree] of
    [@/utils/treeUtil] and is left out.

    JavaScript objects are references: a [UserFile] lives in a heap and is
    named by a location, the store's [userFilesByPath] record maps a path to
    such a location, and every method mutates the object it is called on in
    place.  Asynchronous methods are tasks over that heap which either
    return a value or throw, and which log the calls made to the remote
    API by the entity methods and by the typed listing.  The remote API and [getPathDetails] are collaborators outside the
    module; the development is parametric in them.

    The file has three parts: the program, the vocabulary of the
    statements, and the facts, which end with runs on concrete inputs. *)

From stdpp Require Import base option list strings gmap fin_maps fin_sets pretty.
From Stdlib Require Import ZArith Lia.

Set Warnings "-clear-no-such-hyp".

Local Open Scope string_scope.
Local Open Scope Z_scope.
Local Open Scope list_scope.

(** ** Data model *)

(** [getPathDetails] of [@/utils/formatUtil] returns these four fields. *)
Record PathDetails := mkPathDetails {
  pd_directory : string;
  pd_fullFilename : string;
  pd_filename : string;
  pd_suffix : option string
}.

(** The fields of class [UserFile].  [content] and [originalContent] are
    [string | null]; [lastModified] and [size] are integral numbers. *)
Record UserFile := mkUserFile {
  path : string;
  directory : string;
  fullFilename : string;
  filename : string;
  suffix : option string;
  isLoading : bool;
  content : option string;
  originalContent : option string;
  lastModified : Z;
  size : Z
}.

Global Instance UserFile_inhabited : Inhabited UserFile :=
  populate (mkUserFile EmptyString EmptyString EmptyString EmptyString None false None None 0 0).

Global Instance PathDetails_eq_dec : EqDecision PathDetails.
Proof. solve_decision. Defined.

Global Instance UserFile_eq_dec : EqDecision UserFile.
Proof. solve_decision. Defined.

(** Field assignments [this.x = v]. *)
Definition set_paths (p : string) (d : PathDetails) (f : UserFile) : UserFile :=
  mkUserFile p (pd_directory d) (pd_fullFilename d) (pd_filename d) (pd_suffix d)
    (isLoading f) (content f) (originalContent f) (lastModified f) (size f).

Definition set_isLoading (b : bool) (f : UserFile) : UserFile :=
  mkUserFile (path f) (directory f) (fullFilename f) (filename f) (suffix f)
    b (content f) (originalContent f) (lastModified f) (size f).

Definition set_content (c : option string) (f : UserFile) : UserFile :=
  mkUserFile (path f) (directory f) (fullFilename f) (filename f) (suffix f)
    (isLoading f) c (originalContent f) (lastModified f) (size f).

Definition set_originalContent (c : option string) (f : UserFile) : UserFile :=
  mkUserFile (path f) (directory f) (fullFilename f) (filename f) (suffix f)
    (isLoading f) (content f) c (lastModified f) (size f).

Definition set_lastModified (t : Z) (f : UserFile) : UserFile :=
  mkUserFile (path f) (directory f) (fullFilename f) (filename f) (suffix f)
    (isLoading f) (content f) (originalContent f) t (size f).

Definition set_size (n : Z) (f : UserFile) : UserFile :=
  mkUserFile (path f) (directory f) (fullFilename f) (filename f) (suffix f)
    (isLoading f) (content f) (originalContent f) (lastModified f) n.

(** The getters of [UserFile]. *)
Definition isTemporary (f : UserFile) : bool := bool_decide (size f = -1).
Definition isPersisted (f : UserFile) : bool := negb (isTemporary f).
Definition key (f : UserFile) : string := path f.
Definition isLoaded (f : UserFile) : bool := bool_decide (content f ≠ None).
Definition isModified (f : UserFile) : bool :=
  bool_decide (content f ≠ originalContent f).

(** ** The remote API

    [@/scripts/api] is an external collaborator.  A call settles: it
    resolves with a response or rejects with a reason. *)

Inductive Settled (A : Type) : Type :=
  | Resolved (a : A)
  | Rejected (reason : string).
Arguments Resolved {A} a.
Arguments Rejected {A} reason.

(** A [Response] as the methods read it: [status], [statusText], [text()]. *)
Record Response := mkResponse {
  status : Z;
  statusText : string;
  text : string
}.

(** [UserDataFullInfo], the metadata object of a store or move response. *)
Record UserDataFullInfo := mkFullInfo {
  fi_modified : Z;
  fi_size : Z
}.

(** [resp.json()] cast to [string | UserDataFullInfo]: a legacy backend
    answers with the bare path, a current one with the metadata object. *)
Inductive JsonBody : Type :=
  | JsonString (s : string)
  | JsonObject (info : UserDataFullInfo).

Record JsonResponse := mkJsonResponse {
  jr_status : Z;
  jr_statusText : string;
  jr_json : JsonBody
}.

(** An entry of the typed listing of [listUserDataV2]:
    [{path, type: 'file' | 'directory', size?, modified?}]. *)
Inductive EntryType : Type := file | directory_.

Global Instance EntryType_eq_dec : EqDecision EntryType.
Proof. solve_decision. Defined.

Record Entry := mkEntry {
  e_path : string;
  e_type : EntryType;
  e_size : option Z;
  e_modified : option Z
}.

Record Api := mkApi {
  listUserDataV2 : string → Settled (list Entry);
  getUserData : string → Settled Response;
  (* storeUserData(path, content, { overwrite, throwOnError: true,
     full_info: true }) *)
  storeUserData : string → option string → bool → Settled JsonResponse;
  deleteUserData : string → Settled Response;
  moveUserData : string → string → Settled JsonResponse;
  (* Date.now() *)
  now : Z
}.

(** The calls a task makes to the API, in order. *)
Inductive ApiCall : Type :=
  | ListUserDataV2 (dir : string)
  | GetUserData (p : string)
  | StoreUserData (p : string) (body : option string) (overwrite : bool)
  | DeleteUserData (p : string)
  | MoveUserData (src dest : string).

(** ** Heap, store and tasks *)

(** Object references. *)
Abbreviation loc := positive.

(** [heap] holds the [UserFile] objects; [userFilesByPath] and [userDirs]
    are the two refs of [useUserFileStore], a record used as a map from
    path to object and a set of directory paths; [calls] is the log of
    remote calls. *)
Record Store := mkStore {
  heap : gmap loc UserFile;
  userFilesByPath : gmap string loc;
  userDirs : gset string;
  calls : list ApiCall
}.

(** The references the store knows: those of the live objects and those
    the collection holds. *)
Definition references (σ : Store) : gset loc :=
  dom (heap σ) ∪ map_img (userFilesByPath σ).

Definition with_heap (h : gmap loc UserFile) (σ : Store) : Store :=
  mkStore h (userFilesByPath σ) (userDirs σ) (calls σ).
Definition with_files (m : gmap string loc) (σ : Store) : Store :=
  mkStore (heap σ) m (userDirs σ) (calls σ).
Definition with_dirs (d : gset string) (σ : Store) : Store :=
  mkStore (heap σ) (userFilesByPath σ) d (calls σ).
Definition with_calls (c : list ApiCall) (σ : Store) : Store :=
  mkStore (heap σ) (userFilesByPath σ) (userDirs σ) c.

Inductive Outcome (A : Type) : Type :=
  | Returned (a : A)
  | Thrown (msg : string).
Arguments Returned {A} a.
Arguments Thrown {A} msg.

(** A task runs on a store and ends by returning or throwing; what it wrote
    before a throw stays written. *)
Definition Task (A : Type) : Type := Store → Outcome A * Store.

Global Instance Task_ret : MRet Task := λ A a σ, (Returned a, σ).
Global Instance Task_bind : MBind Task := λ A B k m σ,
  match m σ with
  | (Returned a, σ') => k a σ'
  | (Thrown e, σ') => (Thrown e, σ')
  end.

Definition throw {A} (msg : string) : Task A := λ σ, (Thrown msg, σ).

(** Reading the object behind a reference.  A reference the program holds
    is always live; the lookup is total so that no statement needs a
    side condition for it. *)
Definition deref (l : loc) : Task UserFile := λ σ, (Returned (heap σ !!! l), σ).

(** [l.x = v] for a field setter [g]. *)
Definition assign (l : loc) (g : UserFile → UserFile) : Task unit := λ σ,
  (Returned (), with_heap (<[l := g (heap σ !!! l)]> (heap σ)) σ).

(** [new UserFile(...)]: a reference the store does not know yet. *)
Definition alloc (f : UserFile) : Task loc := λ σ,
  let l := fresh (references σ) in
  (Returned l, with_heap (<[l := f]> (heap σ)) σ).

(** [await api.call(...)]: log the call, then resolve or reject. *)
Definition await {A} (c : ApiCall) (r : Settled A) : Task A := λ σ,
  let σ' := with_calls (calls σ ++ [c]) σ in
  match r with
  | Resolved a => (Returned a, σ')
  | Rejected e => (Thrown e, σ')
  end.

(** ** class UserFile *)

Section UserFile.
(** [getPathDetails] is imported from [@/utils/formatUtil]. *)
Variable getPathDetails : string → PathDetails.
Variable api : Api.

(** [constructor(path, lastModified, size)] *)
Definition newUserFile (p : string) (modified sz : Z) : UserFile :=
  let details := getPathDetails p in
  mkUserFile p (pd_directory details) (pd_fullFilename details)
    (pd_filename details) (pd_suffix details) false None None modified sz.

Definition updatePath (this : loc) (newPath : string) : Task unit :=
  let details := getPathDetails newPath in
  assign this (set_paths newPath details).

Definition createTemporary (p : string) : Task loc :=
  alloc (newUserFile p (now api) (-1)).

Definition failed (what p : string) (st : Z) (stText : string) : string :=
  "Failed to " +:+ what +:+ " file '" +:+ p +:+ "': "
    +:+ pretty st +:+ " " +:+ stText.

Definition load (this : loc) (force : bool) : Task loc :=
  f ← deref this;
  if isTemporary f || (negb force && isLoaded f) then mret this
  else
    assign this (set_isLoading true);;
    f ← deref this;
    resp ← await (GetUserData (path f)) (getUserData api (path f));
    if bool_decide (status resp ≠ 200) then
      f ← deref this;
      throw (failed "load" (path f) (status resp) (statusText resp))
    else
      assign this (set_content (Some (text resp)));;
      f ← deref this;
      assign this (set_originalContent (content f));;
      assign this (set_isLoading false);;
      mret this.

Definition unload (this : loc) : Task unit :=
  assign this (set_content None);;
  assign this (set_originalContent None);;
  assign this (set_isLoading false).

Definition save (this : loc) (force : bool) : Task loc :=
  f ← deref this;
  if isPersisted f && negb (isModified f) && negb force then mret this
  else
    resp ← await (StoreUserData (path f) (content f) (isPersisted f))
                 (storeUserData api (path f) (content f) (isPersisted f));
    match jr_json resp with
    | JsonObject updatedFile =>
        assign this (set_lastModified (fi_modified updatedFile));;
        assign this (set_size (fi_size updatedFile))
    | JsonString _ => mret ()
    end;;
    f ← deref this;
    assign this (set_originalContent (content f));;
    mret this.

Definition saveAs (this : loc) (newPath : string) : Task loc :=
  f ← deref this;
  tempFile ← (if isTemporary f then mret this else createTemporary newPath);
  f ← deref this;
  assign tempFile (set_content (content f));;
  save tempFile false;;
  mret tempFile.

Definition delete_ (this : loc) : Task unit :=
  f ← deref this;
  if isTemporary f then mret ()
  else
    resp ← await (DeleteUserData (path f)) (deleteUserData api (path f));
    if bool_decide (status resp ≠ 204) then
      f ← deref this;
      throw (failed "delete" (path f) (status resp) (statusText resp))
    else mret ().

Definition rename (this : loc) (newPath : string) : Task loc :=
  f ← deref this;
  if isTemporary f then
    updatePath this newPath;;
    mret this
  else
    resp ← await (MoveUserData (path f) newPath)
                 (moveUserData api (path f) newPath);
    if bool_decide (jr_status resp ≠ 200) then
      f ← deref this;
      throw (failed "rename" (path f) (jr_status resp) (jr_statusText resp))
    else
      updatePath this newPath;;
      match jr_json resp with
      | JsonObject updatedFile =>
          assign this (set_lastModified (fi_modified updatedFile));;
          assign this (set_size (fi_size updatedFile))
      | JsonString _ => mret ()
      end;;
      mret this.

End UserFile.

(** ** syncEntitiesV2 and the store's syncFiles *)

(** [for (const x of xs) body] *)
Fixpoint forOf {A} (xs : list A) (body : A → Task unit) : Task unit :=
  match xs with
  | [] => mret ()
  | x :: rest => body x;; forOf rest body
  end.

(** A branch that does nothing ([continue], or a missing [else]). *)
Definition skip : Task unit := mret ().

(** Reads and writes of the record [entityByPath] and of the set [dirSet]. *)
Definition entityAt (k : string) : Task (option loc) := λ σ,
  (Returned (userFilesByPath σ !! k), σ).
Definition putEntity (k : string) (ent : loc) : Task unit := λ σ,
  (Returned (), with_files (<[k := ent]> (userFilesByPath σ)) σ).
Definition deleteEntity (k : string) : Task unit := λ σ,
  (Returned (), with_files (delete k (userFilesByPath σ)) σ).
(** [Object.keys(entityByPath)]; the removal loop treats each key on its
    own, so the order of enumeration does not matter. *)
Definition objectKeys : Task (list string) := λ σ,
  (Returned (map_to_list (userFilesByPath σ)).*1, σ).
Definition dirSetClear : Task unit := λ σ, (Returned (), with_dirs ∅ σ).
Definition dirSetAdd (d : string) : Task unit := λ σ,
  (Returned (), with_dirs ({[d]} ∪ userDirs σ) σ).

Definition isFile (e : Entry) : bool := bool_decide (e_type e = file).
Definition isDirectory (e : Entry) : bool := bool_decide (e_type e = directory_).

(** [files.some((e) => e.path === p)] *)
Definition somePath (files : list Entry) (p : string) : bool :=
  existsb (λ e, bool_decide (e_path e = p)) files.

Section Sync.
Variable getPathDetails : string → PathDetails.
Variable api : Api.

(** [syncEntitiesV2<T>] with [T] an object reference and [entityByPath]
    the store's record.  [exclude] receives what [entityByPath[p]]
    evaluates to; [dirSet] tells whether the optional set was passed. *)
Definition syncEntitiesV2 (p : string)
    (createEntity : Entry → Task loc)
    (updateEntity : loc → Entry → Task unit)
    (exclude : option loc → Task bool)
    (dirSet : bool) : Task unit :=
  entries ← await (ListUserDataV2 p) (listUserDataV2 api p);
  (if dirSet then
     dirSetClear;;
     forOf entries (λ e,
       if isDirectory e then dirSetAdd (e_path e) else skip)
   else skip);;
  let files := filter (λ e, isFile e = true) entries in
  forOf files (λ fileEntry,
    let key := e_path fileEntry in
    existing ← entityAt key;
    match existing with
    | None => ent ← createEntity fileEntry; putEntity key ent
    | Some ent =>
        excluded ← exclude existing;
        if negb excluded then updateEntity ent fileEntry else skip
    end);;
  keys ← objectKeys;
  forOf keys (λ p,
    ent ← entityAt p;
    excluded ← exclude ent;
    if (excluded : bool) then skip
    else if negb (somePath files p) then deleteEntity p else skip).

Definition createFromEntry (entry : Entry) : Task loc :=
  alloc (newUserFile getPathDetails (e_path entry)
           (default 0 (e_modified entry)) (default 0 (e_size entry))).

Definition updateFromEntry (existingFile : loc) (entry : Entry) : Task unit :=
  f ← deref existingFile;
  assign existingFile
    (set_lastModified (default (lastModified f) (e_modified entry)));;
  f ← deref existingFile;
  assign existingFile (set_size (default (size f) (e_size entry)));;
  unload existingFile.

Definition syncFiles (dir : string) : Task unit :=
  syncEntitiesV2 dir createFromEntry updateFromEntry (λ _, mret false) true.

End Sync.

(** ** The computed views of the store *)

(** [Object.values(userFilesByPath)] and its two filters.  The list is
    enumerated in the order of the map; the statements speak of
    membership and length only. *)
Definition userFiles (σ : Store) : list loc :=
  (map_to_list (userFilesByPath σ)).*2.

Definition modifiedFiles (σ : Store) : list loc :=
  filter (λ l, isModified (heap σ !!! l) = true) (userFiles σ).

Definition loadedFiles (σ : Store) : list loc :=
  filter (λ l, isLoaded (heap σ !!! l) = true) (userFiles σ).

(** ** The exclusion hook *)

(** An [exclude] callback that decides on the state of the entity it is
    given, such as [(f) => f.isTemporary]; [onUndefined] is what it does
    when it is called on [undefined]. *)
Definition excludeBy (excl : UserFile → bool) (onUndefined : Task bool)
    (ent : option loc) : Task bool :=
  match ent with
  | Some l => f ← deref l; mret (excl f)
  | None => onUndefined
  end.

(** ** syncEntities, the sync over the flat listing *)

(** An element of the answer of [listUserDataFullInfo] as the sync and
    the callbacks read it: [{path, size, modified}]. *)
Record ListedFile := mkListedFile {
  lf_path : string;
  lf_size : Z;
  lf_modified : Z
}.

(** [dir ? `${dir}/${file.path}` : file.path] *)
Definition prefixed (dir p : string) : string :=
  if decide (dir = EmptyString) then p else dir +:+ "/" +:+ p.

(** [await] of a call that the log [calls] does not record: the log keeps
    the calls of the entity methods and of the typed listing. *)
Definition settle {A} (r : Settled A) : Task A := λ σ,
  match r with
  | Resolved a => (Returned a, σ)
  | Rejected e => (Thrown e, σ)
  end.

(** [Object.entries(entityByPath)] *)
Definition objectEntries : Task (list (string * loc)) := λ σ,
  (Returned (map_to_list (userFilesByPath σ)), σ).

Section Legacy.
Variable listUserDataFullInfo : string → Settled (list ListedFile).

Definition syncEntities (dir : string)
    (createEntity : ListedFile → Task loc)
    (updateEntity : loc → ListedFile → Task unit)
    (exclude : option loc → Task bool) : Task unit :=
  listing ← settle (listUserDataFullInfo dir);
  let files :=
    (λ f, mkListedFile (prefixed dir (lf_path f)) (lf_size f) (lf_modified f))
      <$> listing in
  forOf files (λ f,
    existingEntity ← entityAt (lf_path f);
    match existingEntity with
    | None => ent ← createEntity f; putEntity (lf_path f) ent
    | Some ent =>
        excluded ← exclude existingEntity;
        if (excluded : bool) then skip else updateEntity ent f
    end);;
  entries ← objectEntries;
  forOf entries (λ pe,
    excluded ← exclude (Some pe.2);
    if (excluded : bool) then skip
    else if negb (existsb (λ f, bool_decide (lf_path f = pe.1)) files)
         then deleteEntity pe.1 else skip).

End Legacy.

(** * Vocabulary of the statements

    Normal forms of the stores the methods and the sync leave behind, the
    listing entries that reach an object of the collection, the invariants
    of the collection, and concrete collaborators on which the definitions
    can be run. *)

(** The object [f] after [unload()]. *)
Definition cleared (f : UserFile) : UserFile :=
  set_isLoading false (set_originalContent None (set_content None f)).

(** The store after the object at [l] became [f]. *)
Definition write (l : loc) (f : UserFile) (σ : Store) : Store :=
  mkStore (<[l := f]> (heap σ)) (userFilesByPath σ) (userDirs σ) (calls σ).

(** The store after one more remote call. *)
Definition logged (c : ApiCall) (σ : Store) : Store :=
  mkStore (heap σ) (userFilesByPath σ) (userDirs σ) (calls σ ++ [c]).

(** The object [f] after a successful [load()] that fetched [txt]. *)
Definition loaded (txt : string) (f : UserFile) : UserFile :=
  set_isLoading false (set_originalContent (Some txt) (set_content (Some txt) f)).

(** The object [f] after a successful store answered with [body]. *)
Definition stored (body : JsonBody) (f : UserFile) : UserFile :=
  match body with
  | JsonObject info =>
      set_originalContent (content f)
        (set_size (fi_size info) (set_lastModified (fi_modified info) f))
  | JsonString _ => set_originalContent (content f) f
  end.

(** The object [f] after [updateEntity] applied the listing entry [e]. *)
Definition updated (e : Entry) (f : UserFile) : UserFile :=
  cleared (set_size (default (size f) (e_size e))
             (set_lastModified (default (lastModified f) (e_modified e)) f)).

(** One turn of the directory loop and of the removal loop of
    [syncEntitiesV2]. *)
Definition trackDir (σ : Store) (e : Entry) : Store :=
  if isDirectory e then with_dirs ({[e_path e]} ∪ userDirs σ) σ else σ.

Definition removeAbsent (files : list Entry) (σ : Store) (p : string) : Store :=
  if somePath files p then σ
  else with_files (delete p (userFilesByPath σ)) σ.

(** The file entries and the directory paths of a listing. *)
Definition fileEntries (entries : list Entry) : list Entry :=
  filter (λ e, isFile e = true) entries.

Definition directoryPaths (entries : list Entry) : list string :=
  e_path <$> filter (λ e, isDirectory e = true) entries.

(** The collection holds live objects, one per key: [syncFiles] is the
    only writer of [userFilesByPath] and stores a new object at each key
    it adds. *)
Definition store_wf (σ : Store) : Prop :=
  (∀ p l, userFilesByPath σ !! p = Some l → is_Some (heap σ !! l)) ∧
  (∀ p q l, userFilesByPath σ !! p = Some l →
            userFilesByPath σ !! q = Some l → p = q).


(** The file entries of a listing that name the path [p], in order, and
    those whose key holds the object [l]. *)
Definition entriesAt (p : string) (files : list Entry) : list Entry :=
  filter (λ e, e_path e = p) files.

Definition entriesOn (σ : Store) (l : loc) (files : list Entry) : list Entry :=
  filter (λ e, userFilesByPath σ !! e_path e = Some l) files.

(** The object [f] after [updateEntity] applied the entries [es] in
    order. *)
Definition applied (es : list Entry) (f : UserFile) : UserFile :=
  foldl (λ f e, updated e f) f es.

(** The store between the directory loop and the file loops differs from
    the initial one in [userDirs] and [calls] only. *)
Definition listed (dir : string) (entries : list Entry) (σ : Store) : Store :=
  foldl trackDir (with_dirs ∅ (logged (ListUserDataV2 dir) σ)) entries.

(** [msg] contains [part]. *)
Definition mentions (msg part : string) : Prop :=
  ∃ pre post, msg = pre +:+ part +:+ post.

(** An object that holds no cached content. *)
Definition unloaded (f : UserFile) : Prop :=
  content f = None ∧ originalContent f = None ∧ isLoading f = false.

(** The operations other than a save that a caller may run on an
    entity. *)
Inductive Op : Type :=
  | OpLoad (force : bool)
  | OpUnload
  | OpDelete
  | OpRename (newPath : string).

(** The methods of [UserFile] a caller may invoke on an entity. *)
Inductive Method : Type :=
  | MLoad (force : bool)
  | MUnload
  | MSave (force : bool)
  | MSaveAs (newPath : string)
  | MDelete
  | MRename (newPath : string).

(** What a method invoked on [this] leaves alone: the collection, the
    directory set and every other object that was live. *)
Definition framed (this : loc) (σ σ' : Store) : Prop :=
  userFilesByPath σ' = userFilesByPath σ ∧
  userDirs σ' = userDirs σ ∧
  (∀ l, l ≠ this → is_Some (heap σ !! l) → heap σ' !! l = heap σ !! l) ∧
  (∀ l, is_Some (heap σ !! l) → is_Some (heap σ' !! l)).

(** The value a numeric field ends with after [updateEntity] applied the
    entries [es] in order, [g] reading the optional field of an entry:
    each [entry.x ?? current]. *)
Definition settled (g : Entry → option Z) (es : list Entry) (v : Z) : Z :=
  foldl (λ v e, default v (g e)) v es.




(** The typed entry that carries what a flat listing element carries. *)
Definition entryOf (f : ListedFile) : Entry :=
  mkEntry (lf_path f) file (Some (lf_size f)) (Some (lf_modified f)).

(** The flat listing of [dir] with its paths prefixed, as typed entries. *)
Definition flatEntries (dir : string) (listing : list ListedFile) : list Entry :=
  (λ f, mkEntry (prefixed dir (lf_path f)) file (Some (lf_size f))
          (Some (lf_modified f))) <$> listing.

(** ** Concrete collaborators used to run the definitions *)

(** Path details of a path with no separator and no extension. *)
Definition plainPathDetails (p : string) : PathDetails :=
  mkPathDetails EmptyString p p None.

(** The store of a fresh [useUserFileStore]. *)
Definition emptyStore : Store := mkStore ∅ ∅ ∅ [].

(** A backend that answers every listing with [entries]. *)
Definition apiListing (entries : list Entry) : Api :=
  mkApi (λ _, Resolved entries)
        (λ _, Rejected "offline")
        (λ _ _ _, Rejected "offline")
        (λ _, Rejected "offline")
        (λ _ _, Rejected "offline")
        0.

(** A store with the single object [f], outside any collection. *)
Definition storeOf (f : UserFile) : Store := mkStore {[1%positive := f]} ∅ ∅ [].

(** A backend that answers every call successfully, with full metadata. *)
Definition serverApi : Api :=
  mkApi (λ _, Resolved [])
        (λ _, Resolved (mkResponse 200 "OK" "file content"))
        (λ _ _ _, Resolved (mkJsonResponse 200 "OK" (JsonObject (mkFullInfo 456 200))))
        (λ _, Resolved (mkResponse 204 "No Content" EmptyString))
        (λ _ _, Resolved (mkJsonResponse 200 "OK" (JsonObject (mkFullInfo 456 200))))
        1000.

(** A backend without [full_info]: a store is answered with the bare path. *)
Definition legacyApi : Api :=
  mkApi (λ _, Resolved [])
        (λ _, Resolved (mkResponse 200 "OK" "file content"))
        (λ p _ _, Resolved (mkJsonResponse 200 "OK" (JsonString p)))
        (λ _, Resolved (mkResponse 204 "No Content" EmptyString))
        (λ _ p, Resolved (mkJsonResponse 200 "OK" (JsonString p)))
        1000.

(** A backend on which the file does not exist. *)
Definition missingApi : Api :=
  mkApi (λ _, Resolved [])
        (λ _, Resolved (mkResponse 404 "Not Found" EmptyString))
        (λ _ _ _, Rejected "Not Found")
        (λ _, Resolved (mkResponse 404 "Not Found" EmptyString))
        (λ _ _, Resolved (mkJsonResponse 404 "Not Found" (JsonString EmptyString)))
        1000.

(** A persisted file, as [new UserFile('notes', 123, 100)], and a temporary
    one with unsaved text. *)
Definition notesFile : UserFile := newUserFile plainPathDetails "notes" 123 100.
Definition draftFile : UserFile :=
  set_content (Some "hello") (newUserFile plainPathDetails "draft" 1000 (-1)).

(** A backend that cannot be reached. *)
Definition offlineApi : Api :=
  mkApi (λ _, Rejected "offline")
        (λ _, Rejected "offline")
        (λ _ _ _, Rejected "offline")
        (λ _, Rejected "offline")
        (λ _ _, Rejected "offline")
        1000.

(** A collection holding [a], loaded and edited, and [b], with one tracked
    directory; and two listings of the root. *)
Definition fileA : UserFile :=
  set_originalContent (Some "text")
    (set_content (Some "edited") (newUserFile plainPathDetails "a" 1 10)).
Definition fileB : UserFile := newUserFile plainPathDetails "b" 1 10.
Definition storeAB : Store :=
  mkStore {[1%positive := fileA; 2%positive := fileB]}
          {["a" := 1%positive; "b" := 2%positive]} {["old"]} [].

Definition entryA : Entry := mkEntry "a" file (Some 10) (Some 1).
Definition entryC : Entry := mkEntry "c" file None None.
Definition listingA : list Entry := [entryA].
Definition listingAC : list Entry :=
  [entryA; entryC; mkEntry "sub" directory_ None None].

(** A successful save always leaves the entity persisted. *)
Definition every_successful_save_persists : Prop :=
  ∀ (api : Api) (this : loc) (force : bool) (σ σ' : Store),
    isTemporary (heap σ !!! this) = true →
    save api this force σ = (Returned this, σ') →
    isPersisted (heap σ' !!! this) = true.

(** Every entity a sync adds to the collection is persisted. *)
Definition every_synced_entity_is_persisted : Prop :=
  ∀ (getPathDetails : string → PathDetails) (api : Api) (dir : string)
    (entries : list Entry) (σ σ' : Store) (p : string) (l : loc),
    listUserDataV2 api dir = Resolved entries →
    syncFiles getPathDetails api dir σ = (Returned (), σ') →
    userFilesByPath σ !! p = None →
    userFilesByPath σ' !! p = Some l →
    isPersisted (heap σ' !!! l) = true.

(** A listing whose one file entry reports the size -1. *)
Definition listingSentinel : list Entry := [mkEntry "ghost" file (Some (-1)) (Some 5)].



Definition flatOffline (dir : string) : Settled (list ListedFile) :=
  Rejected "offline".

(** A hook that fails on [undefined], as [(f) => f.isTemporary] does. *)
Definition onUndefinedThrow : Task bool :=
  throw "TypeError: Cannot read properties of undefined".

(** * Facts *)

Ltac run :=
  unfold mbind, Task_bind, mret, Task_ret, skip, deref, assign, alloc, await,
    throw, entityAt, putEntity, deleteEntity, objectKeys, dirSetClear,
    dirSetAdd, with_heap, with_files, with_dirs, with_calls;
  cbn [heap userFilesByPath userDirs calls fst snd].

Ltac heap_simpl :=
  repeat (progress (cbn [heap userFilesByPath userDirs calls fst snd];
                    rewrite ?lookup_total_insert_eq, ?insert_insert_eq)).

Section Facts.
Variable getPathDetails : string → PathDetails.
Variable api : Api.

(** The object [f] after a successful move to [newPath] answered with
    [body]. *)
Definition moved (newPath : string) (body : JsonBody) (f : UserFile) : UserFile :=
  let f' := set_paths newPath (getPathDetails newPath) f in
  match body with
  | JsonObject info => set_size (fi_size info) (set_lastModified (fi_modified info) f')
  | JsonString _ => f'
  end.

(** The object [createEntity] builds from a listing entry. *)
Definition created (e : Entry) : UserFile :=
  newUserFile getPathDetails (e_path e)
    (default 0 (e_modified e)) (default 0 (e_size e)).

(** One turn of the add-or-update loop. *)
Definition addOrUpdate (σ : Store) (e : Entry) : Store :=
  match userFilesByPath σ !! e_path e with
  | None =>
      let l := fresh (references σ) in
      with_files (<[e_path e := l]> (userFilesByPath σ)) (write l (created e) σ)
  | Some l => write l (updated e (heap σ !!! l)) σ
  end.

(** The store a sync leaves when the listing call resolved with
    [entries]. *)
Definition synced (dir : string) (entries : list Entry) (σ : Store) : Store :=
  let files := fileEntries entries in
  let σ1 := foldl trackDir (with_dirs ∅ (logged (ListUserDataV2 dir) σ)) entries in
  let σ2 := foldl addOrUpdate σ1 files in
  foldl (removeAbsent files) σ2 (map_to_list (userFilesByPath σ2)).*1.

(** Running one of them on the entity [this]. *)
Definition perform (this : loc) (op : Op) : Task unit :=
  match op with
  | OpLoad force => load api this force;; mret ()
  | OpUnload => unload this
  | OpDelete => delete_ api this
  | OpRename newPath => rename getPathDetails api this newPath;; mret ()
  end.

(** Invoking a method on the entity [this]. *)
Definition invoke (this : loc) (m : Method) : Task unit :=
  match m with
  | MLoad force => load api this force;; mret ()
  | MUnload => unload this
  | MSave force => save api this force;; mret ()
  | MSaveAs newPath => saveAs getPathDetails api this newPath;; mret ()
  | MDelete => delete_ api this
  | MRename newPath => rename getPathDetails api this newPath;; mret ()
  end.

(** The four derived path fields are those of the path. *)
Definition paths_derived (f : UserFile) : Prop :=
  directory f = pd_directory (getPathDetails (path f)) ∧
  fullFilename f = pd_fullFilename (getPathDetails (path f)) ∧
  filename f = pd_filename (getPathDetails (path f)) ∧
  suffix f = pd_suffix (getPathDetails (path f)).

(** What a method invoked on [this] may do to the store: nothing to the
    collection and the directory set, and at most one object written,
    either [this], with path fields that stay derived, or a new object
    with derived path fields. *)
Definition writes_one (this : loc) (σ σ' : Store) : Prop :=
  userFilesByPath σ' = userFilesByPath σ ∧
  userDirs σ' = userDirs σ ∧
  (heap σ' = heap σ ∨
   ∃ l X, heap σ' = <[l := X]> (heap σ) ∧
     ((l = this ∧ (paths_derived (heap σ !!! this) → paths_derived X)) ∨
      (l = fresh (references σ) ∧ paths_derived X))).

(** Every live object has derived path fields. *)
Definition all_derived (σ : Store) : Prop :=
  ∀ l f, heap σ !! l = Some f → paths_derived f.




(** ** Running a task *)

(** Sequencing, one statement at a time. *)
Lemma bind_run {A B} (m : Task A) (k : A → Task B) σ :
  (m ≫= k) σ =
    match m σ with
    | (Returned a, σ') => k a σ'
    | (Thrown e, σ') => (Thrown e, σ')
    end.
Proof. reflexivity. Qed.

Lemma forOf_run {A} (g : Store → A → Store) (body : A → Task unit) xs σ :
  (∀ x s, body x s = (Returned (), g s x)) →
  forOf xs body σ = (Returned (), foldl g σ xs).
Proof.
  intros Hbody. revert σ.
  induction xs as [|x xs IH]; intros σ; [reflexivity|].
  cbn [forOf foldl]. rewrite bind_run, Hbody. apply IH.
Qed.

Lemma bind_mret {A B} (a : A) (k : A → Task B) σ : (mret a ≫= k) σ = k a σ.
Proof. reflexivity. Qed.

Lemma bind_deref {B} l (k : UserFile → Task B) σ :
  (deref l ≫= k) σ = k (heap σ !!! l) σ.
Proof. reflexivity. Qed.

Lemma bind_assign {B} l g (k : unit → Task B) σ :
  (assign l g ≫= k) σ = k () (write l (g (heap σ !!! l)) σ).
Proof. reflexivity. Qed.

Lemma bind_alloc {B} f (k : loc → Task B) σ :
  (alloc f ≫= k) σ = k (fresh (references σ)) (write (fresh (references σ)) f σ).
Proof. reflexivity. Qed.

Lemma bind_await {A B} c (r : Settled A) (k : A → Task B) σ :
  (await c r ≫= k) σ =
    match r with
    | Resolved a => k a (logged c σ)
    | Rejected e => (Thrown e, logged c σ)
    end.
Proof. destruct r; reflexivity. Qed.

Lemma bind_dirSetClear {B} (k : unit → Task B) σ :
  (dirSetClear ≫= k) σ = k () (with_dirs ∅ σ).
Proof. reflexivity. Qed.

Lemma bind_objectKeys {B} (k : list string → Task B) σ :
  (objectKeys ≫= k) σ = k (map_to_list (userFilesByPath σ)).*1 σ.
Proof. reflexivity. Qed.

Lemma bind_entityAt {B} p (k : option loc → Task B) σ :
  (entityAt p ≫= k) σ = k (userFilesByPath σ !! p) σ.
Proof. reflexivity. Qed.

Lemma bind_forOf {A B} (g : Store → A → Store) (body : A → Task unit) xs
    (k : unit → Task B) σ :
  (∀ x s, body x s = (Returned (), g s x)) →
  (forOf xs body ≫= k) σ = k () (foldl g σ xs).
Proof. intros Hbody. rewrite bind_run, (forOf_run g); done. Qed.

Lemma write_read l f σ : heap (write l f σ) !!! l = f.
Proof. apply lookup_total_insert_eq. Qed.

Lemma write_read_ne l l' f σ : l ≠ l' → heap (write l f σ) !!! l' = heap σ !!! l'.
Proof. intros. cbn. by rewrite lookup_total_insert_ne. Qed.

Lemma write_write l f g σ : write l f (write l g σ) = write l f σ.
Proof. unfold write. cbn. by rewrite insert_insert_eq. Qed.

Lemma logged_write c l f σ : logged c (write l f σ) = write l f (logged c σ).
Proof. reflexivity. Qed.

(** A new reference is none the store knows. *)
Lemma fresh_not_live (σ : Store) l :
  is_Some (heap σ !! l) → l ≠ fresh (references σ).
Proof.
  intros Hl Heq. apply (is_fresh (references σ)). rewrite <- Heq.
  by apply elem_of_union_l, elem_of_dom.
Qed.

Lemma fresh_not_held (σ : Store) p l :
  userFilesByPath σ !! p = Some l → l ≠ fresh (references σ).
Proof.
  intros Hl Heq. apply (is_fresh (references σ)). rewrite <- Heq.
  by eapply elem_of_union_r, elem_of_map_img_2.
Qed.

Lemma fresh_unused (σ : Store) : heap σ !! fresh (references σ) = None.
Proof.
  destruct (heap σ !! fresh (references σ)) eqn:Hl; [|done].
  by destruct (fresh_not_live σ (fresh (references σ))); [eexists|].
Qed.

(** ** What each method does to the store *)

Lemma unload_run this σ :
  unload this σ = (Returned (), write this (cleared (heap σ !!! this)) σ).
Proof.
  unfold unload, write. run.
  rewrite !lookup_total_insert_eq, !insert_insert_eq. reflexivity.
Qed.

Lemma load_noop this force σ :
  isTemporary (heap σ !!! this) || (negb force && isLoaded (heap σ !!! this)) = true →
  load api this force σ = (Returned this, σ).
Proof. intros H. unfold load. run. rewrite H. reflexivity. Qed.

Lemma load_fetch this force σ :
  isTemporary (heap σ !!! this) || (negb force && isLoaded (heap σ !!! this)) = false →
  let f := heap σ !!! this in
  let c := GetUserData (path f) in
  load api this force σ =
    match getUserData api (path f) with
    | Rejected e => (Thrown e, logged c (write this (set_isLoading true f) σ))
    | Resolved resp =>
        if bool_decide (status resp ≠ 200) then
          (Thrown (failed "load" (path f) (status resp) (statusText resp)),
           logged c (write this (set_isLoading true f) σ))
        else (Returned this, logged c (write this (loaded (text resp) f) σ))
    end.
Proof.
  intros H f c. unfold load, logged, write. run. rewrite H. fold f.
  heap_simpl. cbn [path set_isLoading].
  destruct (getUserData api (path f)) as [resp|e]; [|reflexivity].
  heap_simpl. destruct (bool_decide (status resp ≠ 200)); heap_simpl; reflexivity.
Qed.

Lemma save_noop this force σ :
  isPersisted (heap σ !!! this) && negb (isModified (heap σ !!! this)) && negb force = true →
  save api this force σ = (Returned this, σ).
Proof. intros H. unfold save. run. rewrite H. reflexivity. Qed.

Lemma save_call this force σ :
  isPersisted (heap σ !!! this) && negb (isModified (heap σ !!! this)) && negb force = false →
  let f := heap σ !!! this in
  let c := StoreUserData (path f) (content f) (isPersisted f) in
  save api this force σ =
    match storeUserData api (path f) (content f) (isPersisted f) with
    | Rejected e => (Thrown e, logged c σ)
    | Resolved resp =>
        (Returned this, logged c (write this (stored (jr_json resp) f) σ))
    end.
Proof.
  intros H f c. unfold save, logged, write. run. rewrite H. fold f.
  destruct (storeUserData api (path f) (content f) (isPersisted f)) as [resp|e];
    [|reflexivity].
  heap_simpl. fold f. unfold stored.
  destruct (jr_json resp) as [s|info]; heap_simpl; reflexivity.
Qed.

Lemma delete_noop this σ :
  isTemporary (heap σ !!! this) = true → delete_ api this σ = (Returned (), σ).
Proof. intros H. unfold delete_. run. rewrite H. reflexivity. Qed.

Lemma delete_call this σ :
  isTemporary (heap σ !!! this) = false →
  let f := heap σ !!! this in
  let c := DeleteUserData (path f) in
  delete_ api this σ =
    match deleteUserData api (path f) with
    | Rejected e => (Thrown e, logged c σ)
    | Resolved resp =>
        if bool_decide (status resp ≠ 204) then
          (Thrown (failed "delete" (path f) (status resp) (statusText resp)),
           logged c σ)
        else (Returned (), logged c σ)
    end.
Proof.
  intros H f c. unfold delete_, logged. run. rewrite H. fold f.
  destruct (deleteUserData api (path f)) as [resp|e]; [|reflexivity].
  cbn [heap]. destruct (bool_decide (status resp ≠ 204)); reflexivity.
Qed.

Lemma rename_temporary this newPath σ :
  isTemporary (heap σ !!! this) = true →
  rename getPathDetails api this newPath σ =
    (Returned this,
     write this (set_paths newPath (getPathDetails newPath) (heap σ !!! this)) σ).
Proof. intros H. unfold rename, updatePath, write. run. rewrite H. reflexivity. Qed.

Lemma rename_persisted this newPath σ :
  isTemporary (heap σ !!! this) = false →
  let f := heap σ !!! this in
  let c := MoveUserData (path f) newPath in
  rename getPathDetails api this newPath σ =
    match moveUserData api (path f) newPath with
    | Rejected e => (Thrown e, logged c σ)
    | Resolved resp =>
        if bool_decide (jr_status resp ≠ 200) then
          (Thrown (failed "rename" (path f) (jr_status resp) (jr_statusText resp)),
           logged c σ)
        else (Returned this, logged c (write this (moved newPath (jr_json resp) f) σ))
    end.
Proof.
  intros H f c. unfold rename, updatePath, logged, write. run. rewrite H. fold f.
  destruct (moveUserData api (path f) newPath) as [resp|e]; [|reflexivity].
  heap_simpl. destruct (bool_decide (jr_status resp ≠ 200)); [reflexivity|].
  heap_simpl. fold f. unfold moved.
  destruct (jr_json resp) as [s|info]; heap_simpl; reflexivity.
Qed.

Lemma temporary_not_persisted f : isTemporary f = true → isPersisted f = false.
Proof. unfold isPersisted. intros ->. reflexivity. Qed.

Lemma saveAs_temporary this newPath σ :
  isTemporary (heap σ !!! this) = true →
  let f := heap σ !!! this in
  let c := StoreUserData (path f) (content f) false in
  saveAs getPathDetails api this newPath σ =
    match storeUserData api (path f) (content f) false with
    | Rejected e => (Thrown e, logged c (write this (set_content (content f) f) σ))
    | Resolved resp =>
        (Returned this,
         logged c (write this (stored (jr_json resp) (set_content (content f) f)) σ))
    end.
Proof.
  intros H f c. unfold saveAs.
  rewrite bind_deref, H, bind_mret, bind_deref, bind_assign.
  fold f. set (f' := set_content (content f) f).
  assert (Htmp : isTemporary f' = true) by exact H.
  rewrite bind_run, save_call; rewrite write_read.
  2:{ unfold isPersisted. rewrite Htmp. reflexivity. }
  rewrite (temporary_not_persisted _ Htmp).
  change (path f') with (path f). change (content f') with (content f). fold c.
  destruct (storeUserData api (path f) (content f) false) as [resp|e].
  - rewrite write_write. reflexivity.
  - reflexivity.
Qed.

Lemma saveAs_persisted this newPath σ :
  isTemporary (heap σ !!! this) = false →
  is_Some (heap σ !! this) →
  let f := heap σ !!! this in
  let l := fresh (references σ) in
  let t := set_content (content f) (newUserFile getPathDetails newPath (now api) (-1)) in
  let c := StoreUserData newPath (content f) false in
  l ≠ this ∧
  saveAs getPathDetails api this newPath σ =
    match storeUserData api newPath (content f) false with
    | Rejected e => (Thrown e, logged c (write l t σ))
    | Resolved resp => (Returned l, logged c (write l (stored (jr_json resp) t) σ))
    end.
Proof.
  intros H Hlive f l t c.
  assert (Hne : l ≠ this).
  { intros Heq. apply (is_fresh (references σ)). fold l. rewrite Heq.
    apply elem_of_union_l, elem_of_dom. exact Hlive. }
  split; [exact Hne|].
  unfold saveAs, createTemporary.
  rewrite bind_deref, H, bind_alloc. fold l.
  rewrite bind_deref, write_read_ne by exact Hne. fold f.
  rewrite bind_assign, write_read, write_write. fold t.
  rewrite bind_run, save_call; rewrite write_read.
  2:{ reflexivity. }
  change (path t) with newPath. change (content t) with (content f).
  change (isPersisted t) with false. fold c.
  destruct (storeUserData api newPath (content f) false) as [resp|e].
  - rewrite write_write. reflexivity.
  - reflexivity.
Qed.

(** [saveAs] on a persisted entity: a new object at [newPath] with the
    same content, stored with [overwrite] false; the receiver is left as it
    was. *)
Lemma saveAs_persisted_leaves_original this newPath σ resp :
  isTemporary (heap σ !!! this) = false →
  is_Some (heap σ !! this) →
  storeUserData api newPath (content (heap σ !!! this)) false = Resolved resp →
  ∃ l σ',
    saveAs getPathDetails api this newPath σ = (Returned l, σ') ∧
    l ≠ this ∧
    heap σ !! l = None ∧
    heap σ' !!! this = heap σ !!! this ∧
    path (heap σ' !!! l) = newPath ∧
    content (heap σ' !!! l) = content (heap σ !!! this) ∧
    calls σ' = calls σ ++ [StoreUserData newPath (content (heap σ !!! this)) false].
Proof.
  intros Hpers Hlive Hres.
  destruct (saveAs_persisted this newPath σ Hpers Hlive) as [Hne ->].
  rewrite Hres. eexists _, _. split; [reflexivity|].
  split; [done|]. split; [apply fresh_unused|].
  unfold logged, write. cbn [heap calls].
  split; [by rewrite lookup_total_insert_ne|].
  rewrite lookup_total_insert_eq. unfold stored.
  by destruct (jr_json resp).
Qed.

(** ** What a sync does to the store *)

Lemma updateFromEntry_run l e σ :
  updateFromEntry l e σ = (Returned (), write l (updated e (heap σ !!! l)) σ).
Proof.
  unfold updateFromEntry.
  rewrite bind_deref, bind_assign, bind_deref, bind_assign.
  rewrite unload_run, !write_read, !write_write. reflexivity.
Qed.

Lemma syncFiles_run dir σ :
  syncFiles getPathDetails api dir σ =
    match listUserDataV2 api dir with
    | Rejected e => (Thrown e, logged (ListUserDataV2 dir) σ)
    | Resolved entries => (Returned (), synced dir entries σ)
    end.
Proof.
  unfold syncFiles, syncEntitiesV2, synced.
  rewrite bind_await.
  destruct (listUserDataV2 api dir) as [entries|e]; [|reflexivity].
  rewrite bind_run, bind_dirSetClear, (forOf_run trackDir).
  2:{ intros e s. unfold trackDir. destruct (isDirectory e); reflexivity. }
  fold (fileEntries entries).
  rewrite (bind_forOf addOrUpdate).
  2:{ intros e s. unfold addOrUpdate. rewrite bind_entityAt.
      destruct (userFilesByPath s !! e_path e) as [l|].
      - rewrite bind_mret. cbn [negb]. apply updateFromEntry_run.
      - reflexivity. }
  rewrite bind_objectKeys.
  apply (forOf_run (removeAbsent (fileEntries entries))).
  intros p s. unfold removeAbsent. rewrite bind_entityAt, bind_mret.
  destruct (somePath (fileEntries entries) p); reflexivity.
Qed.

(** *** The directory loop *)

Lemma foldl_trackDir entries σ :
  foldl trackDir σ entries =
    with_dirs (list_to_set (directoryPaths entries) ∪ userDirs σ) σ.
Proof.
  revert σ. induction entries as [|e entries IH]; intros σ.
  - cbn. unfold with_dirs. destruct σ; cbn. f_equal. set_solver.
  - cbn [foldl]. rewrite IH. unfold trackDir, directoryPaths.
    rewrite filter_cons. destruct (isDirectory e) eqn:He.
    + rewrite decide_True by done. unfold with_dirs. cbn. f_equal. set_solver.
    + rewrite decide_False by done. reflexivity.
Qed.

(** *** One file entry *)

Lemma addOrUpdate_files σ e p :
  userFilesByPath (addOrUpdate σ e) !! p =
    match userFilesByPath σ !! p with
    | Some l => Some l
    | None => if decide (p = e_path e) then Some (fresh (references σ)) else None
    end.
Proof.
  unfold addOrUpdate.
  destruct (userFilesByPath σ !! e_path e) as [l|] eqn:He; cbn.
  - destruct (userFilesByPath σ !! p) eqn:Hp; [done|].
    case_decide; [congruence|done].
  - destruct (decide (p = e_path e)) as [->|Hne].
    + by rewrite lookup_insert_eq, He.
    + rewrite lookup_insert_ne by done. by destruct (userFilesByPath σ !! p).
Qed.

Lemma addOrUpdate_live σ e l :
  is_Some (heap σ !! l) → is_Some (heap (addOrUpdate σ e) !! l).
Proof.
  intros Hl. unfold addOrUpdate.
  destruct (userFilesByPath σ !! e_path e); cbn;
    rewrite lookup_insert_is_Some'; by right.
Qed.

Lemma addOrUpdate_wf σ e : store_wf σ → store_wf (addOrUpdate σ e).
Proof.
  intros [Hlive Hinj]. split.
  - intros p l. rewrite addOrUpdate_files.
    destruct (userFilesByPath σ !! p) as [l'|] eqn:Hp.
    + intros [= <-]. apply addOrUpdate_live. by eapply Hlive.
    + case_decide; [|done]. intros [= <-]. subst p.
      unfold addOrUpdate. rewrite Hp. cbn. rewrite lookup_insert_eq. by eexists.
  - intros p q l. rewrite !addOrUpdate_files.
    destruct (userFilesByPath σ !! p) as [lp|] eqn:Hp;
      destruct (userFilesByPath σ !! q) as [lq|] eqn:Hq.
    + intros [= <-] [= ->]. by eapply Hinj.
    + intros [= <-]. case_decide; [|done]. intros [= Heq].
      exfalso. by eapply (fresh_not_live σ lp); [eapply Hlive|].
    + case_decide; [|done]. intros [= <-] [= Heq].
      exfalso. by eapply (fresh_not_live σ lq); [eapply Hlive|].
    + repeat case_decide; try done. congruence.
Qed.

(** Which keys hold an object the store knew, and what the turn did to
    it. *)
Lemma addOrUpdate_held σ e q l :
  l ≠ fresh (references σ) →
  userFilesByPath (addOrUpdate σ e) !! q = Some l ↔ userFilesByPath σ !! q = Some l.
Proof.
  intros Hl. rewrite addOrUpdate_files.
  destruct (userFilesByPath σ !! q) as [l'|]; [done|].
  case_decide; [|done]. split; [|done]. intros [= Heq]. by destruct Hl.
Qed.

Lemma addOrUpdate_heap σ e l :
  l ≠ fresh (references σ) →
  heap (addOrUpdate σ e) !!! l =
    if decide (userFilesByPath σ !! e_path e = Some l)
    then updated e (heap σ !!! l) else heap σ !!! l.
Proof.
  intros Hl. unfold addOrUpdate.
  destruct (userFilesByPath σ !! e_path e) as [l'|] eqn:He; cbn.
  - case_decide as Hd.
    + injection Hd as ->. by rewrite lookup_total_insert_eq.
    + rewrite lookup_total_insert_ne; [done|]. by intros ->.
  - rewrite decide_False by done. by rewrite lookup_total_insert_ne.
Qed.

Lemma addOrUpdate_references σ e : references σ ⊆ references (addOrUpdate σ e).
Proof.
  intros l. unfold references. rewrite !elem_of_union, !elem_of_dom, !elem_of_map_img.
  intros [Hl|[q Hq]].
  - left. by apply addOrUpdate_live.
  - right. exists q. by rewrite addOrUpdate_files, Hq.
Qed.

Lemma addOrUpdate_dirs σ e : userDirs (addOrUpdate σ e) = userDirs σ.
Proof. unfold addOrUpdate. by destruct (userFilesByPath σ !! e_path e). Qed.

Lemma addOrUpdate_calls σ e : calls (addOrUpdate σ e) = calls σ.
Proof. unfold addOrUpdate. by destruct (userFilesByPath σ !! e_path e). Qed.

(** *** The add-or-update loop *)

Lemma foldl_addOrUpdate_wf files σ :
  store_wf σ → store_wf (foldl addOrUpdate σ files).
Proof.
  revert σ. induction files as [|e files IH]; intros σ Hwf; [done|].
  cbn [foldl]. by apply IH, addOrUpdate_wf.
Qed.

(** An object the collection held before the loop went through the
    entries at its keys, in order. *)
Lemma foldl_addOrUpdate_held files σ p l :
  userFilesByPath σ !! p = Some l →
  heap (foldl addOrUpdate σ files) !!! l = applied (entriesOn σ l files) (heap σ !!! l).
Proof.
  revert σ. induction files as [|e files IH]; intros σ Hp; [done|].
  assert (Hl : l ≠ fresh (references σ)) by by eapply fresh_not_held.
  cbn [foldl]. rewrite IH by by apply addOrUpdate_held.
  rewrite addOrUpdate_heap by done. unfold entriesOn at 2. rewrite filter_cons.
  replace (entriesOn (addOrUpdate σ e) l files) with (entriesOn σ l files).
  2:{ apply list_filter_iff. intros e'. symmetry. by apply addOrUpdate_held. }
  by case_decide.
Qed.

Lemma foldl_addOrUpdate_live files σ l :
  is_Some (heap σ !! l) → is_Some (heap (foldl addOrUpdate σ files) !! l).
Proof.
  revert σ. induction files as [|e files IH]; intros σ Hl; [done|].
  cbn [foldl]. by apply IH, addOrUpdate_live.
Qed.

(** A key of the collection keeps its object. *)
Lemma foldl_addOrUpdate_kept files σ p l :
  userFilesByPath σ !! p = Some l →
  userFilesByPath (foldl addOrUpdate σ files) !! p = Some l.
Proof.
  revert σ. induction files as [|e files IH]; intros σ Hp; [done|].
  cbn [foldl]. apply IH. by rewrite addOrUpdate_files, Hp.
Qed.

(** A key the loop adds holds a new object, built from the first entry at
    that path and taken through the later ones. *)
Lemma foldl_addOrUpdate_new files σ p l :
  userFilesByPath σ !! p = None →
  userFilesByPath (foldl addOrUpdate σ files) !! p = Some l →
  (l ∉ references σ) ∧
  (∃ e es, entriesAt p files = e :: es ∧
           heap (foldl addOrUpdate σ files) !!! l = applied es (created e)).
Proof.
  revert σ. induction files as [|e files IH]; intros σ Hp Hl.
  - cbn in Hl. congruence.
  - cbn [foldl] in Hl |- *. unfold entriesAt. rewrite filter_cons.
    destruct (decide (e_path e = p)) as [<-|Hne].
    + assert (Hnew : userFilesByPath (addOrUpdate σ e) !! e_path e
                     = Some (fresh (references σ)))
        by by rewrite addOrUpdate_files, Hp, decide_True.
      rewrite (foldl_addOrUpdate_kept files _ _ _ Hnew) in Hl. injection Hl as <-.
      split; [apply is_fresh|]. exists e, (entriesAt (e_path e) files).
      split; [done|].
      rewrite (foldl_addOrUpdate_held files _ _ _ Hnew).
      f_equal.
      * apply list_filter_iff. intros e'. rewrite addOrUpdate_files.
        destruct (userFilesByPath σ !! e_path e') as [l'|] eqn:He'.
        -- split; [|congruence]. intros [= Heq].
           by destruct (fresh_not_held σ (e_path e') l').
        -- case_decide; [done|]. split; [done|congruence].
      * unfold addOrUpdate. rewrite Hp. cbn. by rewrite lookup_total_insert_eq.
    + assert (Hstep : userFilesByPath (addOrUpdate σ e) !! p = None).
      { rewrite addOrUpdate_files, Hp. by rewrite decide_False. }
      destruct (IH _ Hstep Hl) as (Hfresh & e0 & es & Hat & Hobj).
      split; [|by exists e0, es].
      intros Hin. by apply Hfresh, addOrUpdate_references.
Qed.

Lemma foldl_addOrUpdate_dom files σ :
  dom (userFilesByPath (foldl addOrUpdate σ files)) =
    dom (userFilesByPath σ) ∪ list_to_set (e_path <$> files).
Proof.
  revert σ. induction files as [|e files IH]; intros σ.
  - cbn. set_solver.
  - cbn [foldl]. rewrite IH. apply set_eq. intros p.
    rewrite fmap_cons, list_to_set_cons, !elem_of_union, !elem_of_dom.
    rewrite elem_of_singleton, addOrUpdate_files.
    destruct (userFilesByPath σ !! p) as [l|] eqn:Hp.
    + split; intros _; left; by eexists.
    + case_decide as Hd.
      * split; intros _; [right; by left|left; by eexists].
      * rewrite <- !not_eq_None_Some. naive_solver.
Qed.

Lemma foldl_addOrUpdate_dirs files σ :
  userDirs (foldl addOrUpdate σ files) = userDirs σ.
Proof.
  revert σ. induction files as [|e files IH]; intros σ; [done|].
  cbn [foldl]. by rewrite IH, addOrUpdate_dirs.
Qed.

Lemma foldl_addOrUpdate_calls files σ :
  calls (foldl addOrUpdate σ files) = calls σ.
Proof.
  revert σ. induction files as [|e files IH]; intros σ; [done|].
  cbn [foldl]. by rewrite IH, addOrUpdate_calls.
Qed.

(** *** The removal loop *)

Lemma somePath_true files p : somePath files p = true ↔ p ∈ e_path <$> files.
Proof.
  unfold somePath. rewrite existsb_exists, list_elem_of_fmap. split.
  - intros (e & He & Hp). apply bool_decide_eq_true in Hp.
    exists e. split; [done|]. by apply list_elem_of_In.
  - intros (e & -> & He). exists e. split; [by apply list_elem_of_In|].
    by apply bool_decide_eq_true.
Qed.


Lemma foldl_removeAbsent_heap files keys σ :
  heap (foldl (removeAbsent files) σ keys) = heap σ ∧
  userDirs (foldl (removeAbsent files) σ keys) = userDirs σ ∧
  calls (foldl (removeAbsent files) σ keys) = calls σ.
Proof.
  revert σ. induction keys as [|k keys IH]; intros σ; [done|].
  cbn [foldl]. destruct (IH (removeAbsent files σ k)) as (-> & -> & ->).
  unfold removeAbsent. by destruct (somePath files k).
Qed.

Lemma foldl_removeAbsent_files files keys σ p :
  userFilesByPath (foldl (removeAbsent files) σ keys) !! p =
    if decide (p ∈ keys ∧ somePath files p = false) then None
    else userFilesByPath σ !! p.
Proof.
  revert σ. induction keys as [|k keys IH]; intros σ.
  - cbn. rewrite decide_False; [done|]. intros [Hin _]. by apply not_elem_of_nil in Hin.
  - cbn [foldl]. rewrite IH. unfold removeAbsent.
    destruct (decide (p ∈ keys ∧ somePath files p = false)) as [[Hin Hsome]|Hno].
    + rewrite decide_True; [done|]. split; [by apply list_elem_of_further|done].
    + destruct (somePath files k) eqn:Hk.
      * rewrite decide_False; [done|]. intros [Hin Hsome].
        apply elem_of_cons in Hin as [->|Hin]; [congruence|]. by apply Hno.
      * cbn. destruct (decide (p = k)) as [->|Hne].
        -- rewrite lookup_delete_eq, decide_True; [done|].
           split; [apply list_elem_of_here|done].
        -- rewrite lookup_delete_ne by done. rewrite decide_False; [done|].
           intros [Hin Hsome].
           apply elem_of_cons in Hin as [->|Hin]; [done|]. by apply Hno.
Qed.

(** After the removal loop a key survives exactly when a file entry of
    the listing names it. *)
Lemma removal_files files σ p :
  userFilesByPath
    (foldl (removeAbsent files) σ (map_to_list (userFilesByPath σ)).*1) !! p =
    if somePath files p then userFilesByPath σ !! p else None.
Proof.
  rewrite foldl_removeAbsent_files.
  destruct (somePath files p) eqn:Hsome.
  - rewrite decide_False; [done|]. by intros [_ ?].
  - case_decide as Hd; [done|].
    destruct (userFilesByPath σ !! p) as [l|] eqn:Hp; [|done].
    exfalso. apply Hd. split; [|done].
    apply list_elem_of_fmap. exists (p, l). split; [done|].
    by apply elem_of_map_to_list.
Qed.

(** *** The three loops together *)

Lemma synced_calls dir entries σ :
  calls (synced dir entries σ) = calls σ ++ [ListUserDataV2 dir].
Proof.
  unfold synced.
  destruct (foldl_removeAbsent_heap (fileEntries entries)
    (map_to_list (userFilesByPath (foldl addOrUpdate
      (foldl trackDir (with_dirs ∅ (logged (ListUserDataV2 dir) σ)) entries)
      (fileEntries entries)))).*1
    (foldl addOrUpdate
      (foldl trackDir (with_dirs ∅ (logged (ListUserDataV2 dir) σ)) entries)
      (fileEntries entries))) as (_ & _ & ->).
  by rewrite foldl_addOrUpdate_calls, foldl_trackDir.
Qed.

Lemma synced_dirs dir entries σ :
  userDirs (synced dir entries σ) = list_to_set (directoryPaths entries).
Proof.
  unfold synced.
  destruct (foldl_removeAbsent_heap (fileEntries entries)
    (map_to_list (userFilesByPath (foldl addOrUpdate
      (foldl trackDir (with_dirs ∅ (logged (ListUserDataV2 dir) σ)) entries)
      (fileEntries entries)))).*1
    (foldl addOrUpdate
      (foldl trackDir (with_dirs ∅ (logged (ListUserDataV2 dir) σ)) entries)
      (fileEntries entries))) as (_ & -> & _).
  rewrite foldl_addOrUpdate_dirs, foldl_trackDir. cbn. set_solver.
Qed.

Lemma listed_heap dir entries σ : heap (listed dir entries σ) = heap σ.
Proof. unfold listed. by rewrite foldl_trackDir. Qed.

Lemma listed_files dir entries σ :
  userFilesByPath (listed dir entries σ) = userFilesByPath σ.
Proof. unfold listed. by rewrite foldl_trackDir. Qed.

Lemma listed_wf dir entries σ : store_wf σ → store_wf (listed dir entries σ).
Proof. unfold store_wf. by rewrite listed_heap, listed_files. Qed.

Lemma listed_references dir entries σ :
  references (listed dir entries σ) = references σ.
Proof. unfold references. by rewrite listed_heap, listed_files. Qed.

Lemma synced_heap dir entries σ :
  heap (synced dir entries σ) =
    heap (foldl addOrUpdate (listed dir entries σ) (fileEntries entries)).
Proof.
  unfold synced. fold (listed dir entries σ).
  by destruct (foldl_removeAbsent_heap (fileEntries entries)
    (map_to_list (userFilesByPath
      (foldl addOrUpdate (listed dir entries σ) (fileEntries entries)))).*1
    (foldl addOrUpdate (listed dir entries σ) (fileEntries entries)))
    as (-> & _ & _).
Qed.

Lemma synced_files dir entries σ p :
  userFilesByPath (synced dir entries σ) !! p =
    if somePath (fileEntries entries) p
    then userFilesByPath
           (foldl addOrUpdate (listed dir entries σ) (fileEntries entries)) !! p
    else None.
Proof. unfold synced. fold (listed dir entries σ). apply removal_files. Qed.

Lemma synced_wf dir entries σ : store_wf σ → store_wf (synced dir entries σ).
Proof.
  intros Hwf.
  pose proof (foldl_addOrUpdate_wf (fileEntries entries) _
                (listed_wf dir entries σ Hwf)) as [Hlive Hinj].
  split.
  - intros p l. rewrite synced_files, synced_heap.
    destruct (somePath (fileEntries entries) p); [apply Hlive|done].
  - intros p q l. rewrite !synced_files.
    destruct (somePath (fileEntries entries) p); [|done].
    destruct (somePath (fileEntries entries) q); [apply Hinj|done].
Qed.

(** ** Error messages *)

Lemma append_assoc (a b c : string) : (a +:+ b) +:+ c = a +:+ b +:+ c.
Proof.
  induction a as [|ch a IH]; [done|].
  change (String ch ((a +:+ b) +:+ c) = String ch (a +:+ b +:+ c)).
  by f_equal.
Qed.

Lemma append_empty_r (a : string) : a +:+ EmptyString = a.
Proof.
  induction a as [|ch a IH]; [done|].
  change (String ch (a +:+ EmptyString) = String ch a). by f_equal.
Qed.

Lemma failed_mentions what p st stText :
  mentions (failed what p st stText) p ∧
  mentions (failed what p st stText) (pretty st) ∧
  mentions (failed what p st stText) stText.
Proof.
  unfold failed, mentions. repeat split.
  - exists ("Failed to " +:+ what +:+ " file '"),
           ("': " +:+ pretty st +:+ " " +:+ stText).
    by rewrite !append_assoc.
  - exists ("Failed to " +:+ what +:+ " file '" +:+ p +:+ "': "), (" " +:+ stText).
    by rewrite !append_assoc.
  - exists ("Failed to " +:+ what +:+ " file '" +:+ p +:+ "': " +:+ pretty st +:+ " "),
           EmptyString.
    by rewrite !append_assoc, append_empty_r.
Qed.

(** ** The objects of the collection after a sync *)

Lemma applied_spec (P : Z → Prop) es f :
  path (applied es f) = path f ∧
  (unloaded f ∨ es ≠ [] → unloaded (applied es f)) ∧
  (P (size f) → (∀ e s, e ∈ es → e_size e = Some s → P s) →
   P (size (applied es f))).
Proof.
  revert f. induction es as [|e es IH]; intros f.
  - split; [done|]. split; [|done]. by intros [?|?].
  - destruct (IH (updated e f)) as (Hpath & Hun & Hsz).
    change (applied (e :: es) f) with (applied es (updated e f)).
    split; [done|]. split.
    + intros _. by apply Hun; left.
    + intros Hf Hes. apply Hsz.
      * cbn. destruct (e_size e) as [s|] eqn:Hs; cbn; [|done].
        eapply Hes; [apply list_elem_of_here|done].
      * intros e' s He'. apply Hes. by apply list_elem_of_further.
Qed.

(** With one object per key, the entries at the keys of an object are the
    entries at its path. *)
Lemma entriesOn_entriesAt σ p l files :
  store_wf σ →
  userFilesByPath σ !! p = Some l →
  entriesOn σ l files = entriesAt p files.
Proof.
  intros [_ Hinj] Hp. apply list_filter_iff. intros e. split.
  - intros He. by eapply Hinj.
  - by intros ->.
Qed.

Lemma entriesAt_elem p files e : e ∈ entriesAt p files ↔ e ∈ files ∧ e_path e = p.
Proof. unfold entriesAt. rewrite list_elem_of_filter. tauto. Qed.

Lemma synced_kept dir entries σ e l :
  e ∈ fileEntries entries →
  userFilesByPath σ !! e_path e = Some l →
  userFilesByPath (synced dir entries σ) !! e_path e = Some l.
Proof.
  intros He Hl. rewrite synced_files.
  assert (Hsome : somePath (fileEntries entries) (e_path e) = true).
  { apply somePath_true, list_elem_of_fmap. by exists e. }
  rewrite Hsome. apply foldl_addOrUpdate_kept. by rewrite listed_files.
Qed.

Lemma synced_new dir entries σ p l :
  userFilesByPath σ !! p = None →
  userFilesByPath (synced dir entries σ) !! p = Some l →
  (l ∉ references σ) ∧
  (∃ e es, entriesAt p (fileEntries entries) = e :: es ∧
           heap (synced dir entries σ) !!! l = applied es (created e)).
Proof.
  rewrite synced_files, synced_heap. intros Hnone Hl.
  destruct (somePath (fileEntries entries) p); [|done].
  rewrite <- (listed_references dir entries σ).
  eapply foldl_addOrUpdate_new; [|done]. by rewrite listed_files.
Qed.

Lemma synced_dom dir entries σ :
  dom (userFilesByPath (synced dir entries σ)) =
    list_to_set (e_path <$> fileEntries entries).
Proof.
  apply set_eq. intros p.
  rewrite elem_of_dom, synced_files, elem_of_list_to_set, <- somePath_true.
  destruct (somePath (fileEntries entries) p) eqn:Hsome.
  - split; [done|]. intros _. apply elem_of_dom.
    rewrite foldl_addOrUpdate_dom, elem_of_union, elem_of_list_to_set.
    right. by apply somePath_true.
  - split; [by intros [? ?]|done].
Qed.

Lemma synced_existing dir entries σ p l :
  userFilesByPath σ !! p = Some l →
  heap (synced dir entries σ) !!! l
    = applied (entriesOn σ l (fileEntries entries)) (heap σ !!! l).
Proof.
  intros Hl. rewrite synced_heap.
  rewrite (foldl_addOrUpdate_held _ _ p l) by by rewrite listed_files.
  unfold entriesOn. by rewrite listed_heap, listed_files.
Qed.

(** *** The invariant outside a sync *)

Lemma store_wf_empty : store_wf emptyStore.
Proof.
  split; [intros p l Hp|intros p q l Hp]; cbn in Hp;
    by rewrite lookup_empty in Hp.
Qed.

(** An entity method leaves [userFilesByPath] alone and frees no object. *)
Lemma store_wf_frame σ σ' :
  userFilesByPath σ' = userFilesByPath σ →
  (∀ l, is_Some (heap σ !! l) → is_Some (heap σ' !! l)) →
  store_wf σ → store_wf σ'.
Proof.
  intros Hfiles Hheap [Hlive Hinj]. unfold store_wf. rewrite Hfiles.
  split; [|done]. intros p l Hp. by eapply Hheap, Hlive.
Qed.



(** ** Temporary entities *)

Lemma perform_temporary this op σ :
  isTemporary (heap σ !!! this) = true →
  ∃ σ', perform this op σ = (Returned (), σ') ∧
        isTemporary (heap σ' !!! this) = true ∧
        calls σ' = calls σ.
Proof.
  intros Htemp. destruct op as [force| | |newPath]; unfold perform.
  - rewrite bind_run, load_noop by (by rewrite Htemp). by exists σ.
  - rewrite unload_run. eexists. split; [reflexivity|].
    rewrite write_read. by split.
  - rewrite delete_noop by done. by exists σ.
  - rewrite bind_run, rename_temporary by done. eexists. split; [reflexivity|].
    rewrite write_read. by split.
Qed.

Lemma performAll_temporary this ops σ :
  isTemporary (heap σ !!! this) = true →
  ∃ σ', forOf ops (perform this) σ = (Returned (), σ') ∧
        isTemporary (heap σ' !!! this) = true ∧
        calls σ' = calls σ.
Proof.
  revert σ. induction ops as [|op ops IH]; intros σ Htemp.
  - by exists σ.
  - cbn [forOf]. rewrite bind_run.
    destruct (perform_temporary this op σ Htemp) as (σ1 & -> & Htemp1 & Hcalls1).
    destruct (IH σ1 Htemp1) as (σ' & -> & Htemp' & Hcalls').
    exists σ'. split; [done|]. split; [done|]. congruence.
Qed.

Lemma isTemporary_size f : isTemporary f = true ↔ size f = -1.
Proof. unfold isTemporary. apply bool_decide_eq_true. Qed.

(** ** The entity lifecycle *)

(** C9: [unload()] on any entity in any state returns without throwing
    and leaves [content] and [originalContent] null and [isLoading] false,
    touching no other field; a second [unload()] changes nothing more, so
    unloading twice ends in the state of unloading once. *)
Theorem unload_clears_and_is_idempotent (this : loc) (σ : Store) :
  ∃ σ',
    unload this σ = (Returned (), σ') ∧
    content (heap σ' !!! this) = None ∧
    originalContent (heap σ' !!! this) = None ∧
    isLoading (heap σ' !!! this) = false ∧
    path (heap σ' !!! this) = path (heap σ !!! this) ∧
    lastModified (heap σ' !!! this) = lastModified (heap σ !!! this) ∧
    size (heap σ' !!! this) = size (heap σ !!! this) ∧
    unload this σ' = (Returned (), σ') ∧
    (unload this;; unload this) σ = unload this σ.
Proof.
  exists (write this (cleared (heap σ !!! this)) σ).
  assert (Hagain : unload this (write this (cleared (heap σ !!! this)) σ)
                   = (Returned (), write this (cleared (heap σ !!! this)) σ)).
  { rewrite unload_run, write_read, write_write. reflexivity. }
  rewrite write_read. repeat split; try reflexivity.
  - apply unload_run.
  - exact Hagain.
  - rewrite bind_run, unload_run. exact Hagain.
Qed.

(** C5: [load()] returns the entity at once, with no remote call and no
    change of state, when the entity is temporary or when it is loaded
    and [force] is false.  Otherwise it sets [isLoading] and fetches by
    path: a response whose status is not 200 makes it throw an error that
    names the path, the status and the status text, with [isLoading]
    still true; a response with status 200 sets [content] and
    [originalContent] to the fetched text and resets [isLoading]. *)
Theorem load_behaviour (this : loc) (force : bool) (σ : Store) :
  let f := heap σ !!! this in
  (isTemporary f = true ∨ (isLoaded f = true ∧ force = false) →
     load api this force σ = (Returned this, σ)) ∧
  (isTemporary f = false → isLoaded f = false ∨ force = true →
     ∀ resp, getUserData api (path f) = Resolved resp →
       ∃ out σ',
         load api this force σ = (out, σ') ∧
         calls σ' = calls σ ++ [GetUserData (path f)] ∧
         userFilesByPath σ' = userFilesByPath σ ∧
         (status resp ≠ 200 →
            let msg := "Failed to load file '" +:+ path f +:+ "': "
                         +:+ pretty (status resp) +:+ " " +:+ statusText resp in
            out = Thrown msg ∧
            mentions msg (path f) ∧
            mentions msg (pretty (status resp)) ∧
            mentions msg (statusText resp) ∧
            heap σ' !!! this = set_isLoading true f ∧
            isLoading (heap σ' !!! this) = true) ∧
         (status resp = 200 →
            out = Returned this ∧
            content (heap σ' !!! this) = Some (text resp) ∧
            originalContent (heap σ' !!! this) = Some (text resp) ∧
            isLoading (heap σ' !!! this) = false ∧
            heap σ' !!! this =
              set_isLoading false
                (set_originalContent (Some (text resp))
                   (set_content (Some (text resp)) f)))).
Proof.
  intros f. split.
  - intros Hskip. apply load_noop. fold f.
    destruct Hskip as [->|[-> ->]]; [reflexivity|]. by rewrite orb_true_r.
  - intros Htemp Hfetch resp Hresp.
    assert (Hgo : isTemporary f || (negb force && isLoaded f) = false).
    { rewrite Htemp. destruct Hfetch as [->| ->]; [by rewrite andb_false_r|done]. }
    rewrite (load_fetch this force σ Hgo). fold f. rewrite Hresp.
    destruct (decide (status resp = 200)) as [Hok|Hko].
    + rewrite bool_decide_eq_false_2 by (by intros ?).
      eexists _, _. split; [reflexivity|].
      split; [reflexivity|]. split; [reflexivity|]. split; [done|].
      intros _. unfold logged, write. heap_simpl. by repeat split.
    + rewrite bool_decide_eq_true_2 by done.
      eexists _, _. split; [reflexivity|].
      split; [reflexivity|]. split; [reflexivity|]. split; [|done].
      intros _. cbn zeta. unfold logged, write. heap_simpl.
      destruct (failed_mentions "load" (path f) (status resp) (statusText resp))
        as (Hp & Hs & Ht).
      by repeat split.
Qed.

(** C4: [save()] with [force] false on a persisted, unmodified entity
    makes no remote call and returns the same reference.  On a modified
    or temporary entity it makes exactly one store call, with [overwrite]
    the value [isPersisted] had before the call; it returns once that call
    resolves, and when it has returned, the result is the same reference
    and [originalContent] equals [content], so [isModified] is false. *)
Theorem save_behaviour (this : loc) (force : bool) (σ : Store) :
  let f := heap σ !!! this in
  (isPersisted f = true → isModified f = false →
     save api this false σ = (Returned this, σ)) ∧
  (isModified f = true ∨ isTemporary f = true →
     ∃ out σ',
       save api this force σ = (out, σ') ∧
       calls σ' = calls σ ++ [StoreUserData (path f) (content f) (isPersisted f)] ∧
       (∀ resp,
          storeUserData api (path f) (content f) (isPersisted f) = Resolved resp →
          out = Returned this) ∧
       (∀ r, out = Returned r →
          r = this ∧
          content (heap σ' !!! this) = content f ∧
          originalContent (heap σ' !!! this) = content (heap σ' !!! this) ∧
          isModified (heap σ' !!! this) = false)).
Proof.
  intros f. split.
  - intros Hp Hm. apply save_noop. fold f. by rewrite Hp, Hm.
  - intros Hdirty.
    assert (Hgo : isPersisted f && negb (isModified f) && negb force = false).
    { unfold isPersisted.
      destruct Hdirty as [-> | ->]; [by rewrite andb_false_r|done]. }
    rewrite (save_call this force σ Hgo). fold f.
    destruct (storeUserData api (path f) (content f) (isPersisted f))
      as [resp|reason].
    + eexists _, _. split; [reflexivity|]. split; [reflexivity|].
      split; [done|]. intros r [= <-]. unfold logged, write. heap_simpl.
      split; [done|]. unfold stored, isModified.
      destruct (jr_json resp); cbn; (split; [done|]); (split; [done|]);
        by apply bool_decide_eq_false_2; intros Hne; apply Hne.
    + eexists _, _. split; [reflexivity|]. split; [reflexivity|].
      split; [by intros resp|]. by intros r.
Qed.

(** C8: [rename(newPath)] on a temporary entity makes no remote call,
    rewrites the five path fields and nothing else, and returns the same
    entity.  On a persisted entity it calls the remote move; a status
    other than 200 makes it throw an error naming the path, the status
    and the status text, with the entity unchanged; status 200 rewrites
    the path fields and, when the body is a metadata object, sets
    [lastModified] and [size] from it. *)
Theorem rename_behaviour (this : loc) (newPath : string) (σ : Store) :
  let f := heap σ !!! this in
  let d := getPathDetails newPath in
  (isTemporary f = true →
     ∃ σ',
       rename getPathDetails api this newPath σ = (Returned this, σ') ∧
       calls σ' = calls σ ∧
       heap σ' !!! this =
         mkUserFile newPath (pd_directory d) (pd_fullFilename d) (pd_filename d)
           (pd_suffix d) (isLoading f) (content f) (originalContent f)
           (lastModified f) (size f)) ∧
  (isTemporary f = false →
     ∀ resp, moveUserData api (path f) newPath = Resolved resp →
       ∃ out σ',
         rename getPathDetails api this newPath σ = (out, σ') ∧
         calls σ' = calls σ ++ [MoveUserData (path f) newPath] ∧
         (jr_status resp ≠ 200 →
            let msg := "Failed to rename file '" +:+ path f +:+ "': "
                         +:+ pretty (jr_status resp) +:+ " " +:+ jr_statusText resp in
            out = Thrown msg ∧
            mentions msg (path f) ∧
            mentions msg (pretty (jr_status resp)) ∧
            mentions msg (jr_statusText resp) ∧
            heap σ' = heap σ) ∧
         (jr_status resp = 200 →
            out = Returned this ∧
            match jr_json resp with
            | JsonObject info =>
                heap σ' !!! this =
                  mkUserFile newPath (pd_directory d) (pd_fullFilename d)
                    (pd_filename d) (pd_suffix d) (isLoading f) (content f)
                    (originalContent f) (fi_modified info) (fi_size info)
            | JsonString _ =>
                heap σ' !!! this =
                  mkUserFile newPath (pd_directory d) (pd_fullFilename d)
                    (pd_filename d) (pd_suffix d) (isLoading f) (content f)
                    (originalContent f) (lastModified f) (size f)
            end)).
Proof.
  intros f d. split.
  - intros Htemp. rewrite (rename_temporary this newPath σ Htemp).
    eexists. split; [reflexivity|]. split; [reflexivity|].
    unfold write. heap_simpl. reflexivity.
  - intros Hpers resp Hresp.
    rewrite (rename_persisted this newPath σ Hpers).
    fold f. rewrite Hresp.
    destruct (decide (jr_status resp = 200)) as [Hok|Hko].
    + rewrite bool_decide_eq_false_2 by (by intros ?).
      eexists _, _. split; [reflexivity|]. split; [reflexivity|].
      split; [done|]. intros _. split; [done|].
      unfold logged, write, moved. heap_simpl.
      by destruct (jr_json resp).
    + rewrite bool_decide_eq_true_2 by done.
      eexists _, _. split; [reflexivity|]. split; [reflexivity|].
      split; [|done]. intros _. cbn zeta.
      destruct (failed_mentions "rename" (path f) (jr_status resp)
                  (jr_statusText resp)) as (Hp & Hs & Ht).
      by repeat split.
Qed.

(** C3, as the code has it: a temporary entity keeps [size] -1, and makes
    no remote call, under any run of [load], [unload], [delete] and
    [rename]; it also keeps it under a [save] whose store call rejects or
    is answered with a bare string, the answer of a backend without
    [full_info].  A [save] that is answered with a metadata object sets
    [size] and [lastModified] to the reported values, and the entity is
    then persisted exactly when the reported size is not -1. *)
Theorem temporary_until_saved_with_metadata (this : loc) (σ : Store) :
  let f := heap σ !!! this in
  (isTemporary f = true →
     (∀ ops, ∃ σ',
        forOf ops (perform this) σ = (Returned (), σ') ∧
        size (heap σ' !!! this) = -1 ∧
        calls σ' = calls σ) ∧
     (∀ force reason,
        storeUserData api (path f) (content f) false = Rejected reason →
        ∃ σ', save api this force σ = (Thrown reason, σ') ∧
              size (heap σ' !!! this) = -1) ∧
     (∀ force resp s,
        storeUserData api (path f) (content f) false = Resolved resp →
        jr_json resp = JsonString s →
        ∃ σ', save api this force σ = (Returned this, σ') ∧
              size (heap σ' !!! this) = -1 ∧
              lastModified (heap σ' !!! this) = lastModified f ∧
              isPersisted (heap σ' !!! this) = false)) ∧
  (∀ force resp info,
     isTemporary f = true ∨ isModified f = true ∨ force = true →
     storeUserData api (path f) (content f) (isPersisted f) = Resolved resp →
     jr_json resp = JsonObject info →
     ∃ σ', save api this force σ = (Returned this, σ') ∧
           size (heap σ' !!! this) = fi_size info ∧
           lastModified (heap σ' !!! this) = fi_modified info ∧
           (isPersisted (heap σ' !!! this) = true ↔ fi_size info ≠ -1)).
Proof.
  intros f. split.
  - intros Htemp.
    assert (Hpers : isPersisted f = false) by by apply temporary_not_persisted.
    assert (Hgo : ∀ force,
              isPersisted f && negb (isModified f) && negb force = false)
      by (intros force; by rewrite Hpers).
    assert (Hsize : size f = -1) by by apply isTemporary_size.
    split; [|split].
    + intros ops.
      destruct (performAll_temporary this ops σ Htemp) as (σ' & Hrun & Ht & Hc).
      exists σ'. split; [done|]. split; [|done]. by apply isTemporary_size.
    + intros force reason Hrej.
      rewrite (save_call this force σ (Hgo force)). fold f.
      rewrite Hpers, Hrej. eexists. split; [reflexivity|]. exact Hsize.
    + intros force resp s Hres Hjson.
      rewrite (save_call this force σ (Hgo force)). fold f.
      rewrite Hpers, Hres. eexists. split; [reflexivity|].
      unfold logged, write. heap_simpl. rewrite Hjson. cbn.
      split; [done|]. split; [done|].
      unfold isPersisted, isTemporary. cbn. by rewrite Hsize.
  - intros force resp info Hdirty Hres Hjson.
    assert (Hgo : isPersisted f && negb (isModified f) && negb force = false).
    { unfold isPersisted.
      destruct Hdirty as [-> | [-> | ->]];
        [done|by rewrite andb_false_r|by rewrite andb_false_r]. }
    rewrite (save_call this force σ Hgo). fold f. rewrite Hres.
    eexists. split; [reflexivity|].
    unfold logged, write. heap_simpl. rewrite Hjson. cbn.
    split; [done|]. split; [done|].
    unfold isPersisted, isTemporary. cbn.
    rewrite negb_true_iff. apply bool_decide_eq_false.
Qed.

(** ** The collection reconciler *)

(** C7: when the listing call of a sync rejects, the sync rejects with
    the same reason, whatever callbacks it was given, and the objects,
    the collection and the directory set are exactly what they were. *)
Theorem sync_rejected_changes_nothing (dir reason : string) (σ : Store)
    (createEntity : Entry → Task loc)
    (updateEntity : loc → Entry → Task unit)
    (exclude : option loc → Task bool) (dirSet : bool) :
  listUserDataV2 api dir = Rejected reason →
  ∃ σ',
    syncEntitiesV2 api dir createEntity updateEntity exclude dirSet σ
      = (Thrown reason, σ') ∧
    syncFiles getPathDetails api dir σ = (Thrown reason, σ') ∧
    heap σ' = heap σ ∧
    userFilesByPath σ' = userFilesByPath σ ∧
    userDirs σ' = userDirs σ.
Proof.
  intros Hrej. exists (logged (ListUserDataV2 dir) σ).
  unfold syncFiles, syncEntitiesV2.
  rewrite !bind_await, Hrej. done.
Qed.

(** C6: after a sync whose listing resolved, the directory set is exactly
    the set of paths of the listing's directory entries; a path tracked
    before and not listed now is gone, wherever it lies relative to the
    directory that was synced. *)
Theorem sync_replaces_known_directories (dir : string) (entries : list Entry)
    (σ : Store) :
  listUserDataV2 api dir = Resolved entries →
  ∃ σ',
    syncFiles getPathDetails api dir σ = (Returned (), σ') ∧
    userDirs σ' = list_to_set (directoryPaths entries) ∧
    (∀ d, d ∈ userDirs σ' ↔
          ∃ e, e ∈ entries ∧ e_type e = directory_ ∧ e_path e = d) ∧
    (∀ d, d ∈ userDirs σ →
          (∀ e, e ∈ entries → e_type e = directory_ → e_path e ≠ d) →
          d ∉ userDirs σ').
Proof.
  intros Hres. exists (synced dir entries σ).
  rewrite syncFiles_run, Hres, synced_dirs.
  assert (Hdirs : ∀ d, d ∈@{gset string} list_to_set (directoryPaths entries) ↔
            ∃ e, e ∈ entries ∧ e_type e = directory_ ∧ e_path e = d).
  { intros d. unfold directoryPaths.
    rewrite elem_of_list_to_set, list_elem_of_fmap. split.
    - intros (e & -> & He). apply list_elem_of_filter in He as [Hd He].
      exists e. split; [done|]. split; [|done].
      by apply bool_decide_eq_true in Hd.
    - intros (e & He & Hd & <-). exists e. split; [done|].
      apply list_elem_of_filter. split; [|done]. by apply bool_decide_eq_true. }
  split; [done|]. split; [done|]. split; [exact Hdirs|].
  intros d _ Habsent Hd. apply Hdirs in Hd as (e & He & Htype & Hpath).
  by eapply Habsent.
Qed.


(** C10, as the code has it: an entity that a sync adds to the collection
    is persisted, not temporary, whenever no file entry of the listing
    reports the size -1; its [size] is the reported one, or 0 when the
    entry omits it, and its [lastModified] is 0 when the entry omits
    [modified]. *)
Theorem sync_created_entities_are_persisted (dir : string)
    (entries : list Entry) (σ : Store) :
  listUserDataV2 api dir = Resolved entries →
  (∀ e s, e ∈ fileEntries entries → e_size e = Some s → s ≠ -1) →
  ∃ σ',
    syncFiles getPathDetails api dir σ = (Returned (), σ') ∧
    ∀ p l,
      userFilesByPath σ !! p = None →
      userFilesByPath σ' !! p = Some l →
      isTemporary (heap σ' !!! l) = false ∧
      isPersisted (heap σ' !!! l) = true ∧
      ∀ e, entriesAt p (fileEntries entries) = [e] →
        size (heap σ' !!! l) = default 0 (e_size e) ∧
        lastModified (heap σ' !!! l) = default 0 (e_modified e) ∧
        (e_size e = None → size (heap σ' !!! l) = 0) ∧
        (e_modified e = None → lastModified (heap σ' !!! l) = 0).
Proof.
  intros Hres Hsizes. exists (synced dir entries σ).
  rewrite syncFiles_run, Hres. split; [done|].
  intros p l Hnone Hl.
  destruct (synced_new dir entries σ p l Hnone Hl) as (_ & e0 & es & Hat & Hobj).
  destruct (applied_spec (λ n, n ≠ -1) es (created e0)) as (_ & _ & Hsz).
  assert (Hsub : ∀ e, e ∈ e0 :: es → e ∈ fileEntries entries).
  { intros e He. rewrite <- Hat in He. by apply entriesAt_elem in He as [? _]. }
  assert (Hsize : size (heap (synced dir entries σ) !!! l) ≠ -1).
  { rewrite Hobj. apply Hsz.
    - cbn. destruct (e_size e0) as [s|] eqn:Hs; cbn; [|done].
      eapply Hsizes; [apply Hsub, list_elem_of_here|done].
    - intros e s He. apply Hsizes, Hsub. by apply list_elem_of_further. }
  assert (Htemp : isTemporary (heap (synced dir entries σ) !!! l) = false).
  { unfold isTemporary. by apply bool_decide_eq_false. }
  split; [done|]. split; [unfold isPersisted; by rewrite Htemp|].
  intros e Hone. rewrite Hone in Hat. injection Hat as <- <-.
  rewrite Hobj. cbn.
  split; [done|]. split; [done|]. split; by intros ->.
Qed.

(** ** Deleting, failing calls and repeated calls *)

(** X1: [delete()] on a temporary entity does nothing.  On a persisted
    entity it makes exactly one delete call: status 204 makes it return,
    any other status makes it throw an error naming the path, the status
    and the status text, and a rejected call is passed on.  In no case
    does it change an object, the collection or the directory set: the
    entity stays where it was. *)
Theorem delete_behaviour (this : loc) (σ : Store) :
  let f := heap σ !!! this in
  (isTemporary f = true → delete_ api this σ = (Returned (), σ)) ∧
  (isTemporary f = false →
     ∃ out σ',
       delete_ api this σ = (out, σ') ∧
       calls σ' = calls σ ++ [DeleteUserData (path f)] ∧
       heap σ' = heap σ ∧
       userFilesByPath σ' = userFilesByPath σ ∧
       userDirs σ' = userDirs σ ∧
       (∀ reason, deleteUserData api (path f) = Rejected reason →
          out = Thrown reason) ∧
       (∀ resp, deleteUserData api (path f) = Resolved resp →
          (status resp = 204 → out = Returned ()) ∧
          (status resp ≠ 204 →
             let msg := "Failed to delete file '" +:+ path f +:+ "': "
                          +:+ pretty (status resp) +:+ " " +:+ statusText resp in
             out = Thrown msg ∧
             mentions msg (path f) ∧
             mentions msg (pretty (status resp)) ∧
             mentions msg (statusText resp)))).
Proof.
  intros f. split; [apply delete_noop|].
  intros Hpers. rewrite (delete_call this σ Hpers). fold f.
  destruct (deleteUserData api (path f)) as [resp|reason].
  - destruct (decide (status resp = 204)) as [Hok|Hko].
    + rewrite bool_decide_eq_false_2 by (by intros ?).
      eexists _, _. split; [reflexivity|]. do 4 (split; [reflexivity|]).
      split; [done|]. intros resp' [= <-]. split; [done|]. by intros ?.
    + rewrite bool_decide_eq_true_2 by done.
      eexists _, _. split; [reflexivity|]. do 4 (split; [reflexivity|]).
      split; [done|]. intros resp' [= <-]. split; [done|]. intros _. cbn zeta.
      destruct (failed_mentions "delete" (path f) (status resp) (statusText resp))
        as (Hp & Hs & Ht).
      by repeat split.
  - eexists _, _. split; [reflexivity|]. do 4 (split; [reflexivity|]).
    split; [by intros reason' [= <-]|]. by intros resp.
Qed.

(** X2: a rejected remote call is passed on to the caller.  [save] and
    [rename] then leave every object as it was, so a modified entity stays
    modified and a renamed one keeps its path; [load] has set [isLoading]
    before the call and leaves it set, with the content untouched. *)
Theorem rejected_call_is_passed_on (this : loc) (σ : Store) (reason : string) :
  let f := heap σ !!! this in
  (∀ force,
     isTemporary f = false → isLoaded f = false ∨ force = true →
     getUserData api (path f) = Rejected reason →
     ∃ σ', load api this force σ = (Thrown reason, σ') ∧
           heap σ' !!! this = set_isLoading true f ∧
           calls σ' = calls σ ++ [GetUserData (path f)]) ∧
  (∀ force,
     isModified f = true ∨ isTemporary f = true ∨ force = true →
     storeUserData api (path f) (content f) (isPersisted f) = Rejected reason →
     ∃ σ', save api this force σ = (Thrown reason, σ') ∧
           heap σ' = heap σ ∧
           calls σ' = calls σ ++ [StoreUserData (path f) (content f) (isPersisted f)]) ∧
  (∀ newPath,
     isTemporary f = false →
     moveUserData api (path f) newPath = Rejected reason →
     ∃ σ', rename getPathDetails api this newPath σ = (Thrown reason, σ') ∧
           heap σ' = heap σ ∧
           calls σ' = calls σ ++ [MoveUserData (path f) newPath]).
Proof.
  intros f. split; [|split].
  - intros force Htemp Hfetch Hrej.
    assert (Hgo : isTemporary f || (negb force && isLoaded f) = false).
    { rewrite Htemp. destruct Hfetch as [->| ->]; [by rewrite andb_false_r|done]. }
    rewrite (load_fetch this force σ Hgo). fold f. rewrite Hrej.
    eexists. split; [reflexivity|]. unfold logged, write. heap_simpl. done.
  - intros force Hdirty Hrej.
    assert (Hgo : isPersisted f && negb (isModified f) && negb force = false).
    { unfold isPersisted.
      destruct Hdirty as [-> | [-> | ->]];
        [by rewrite andb_false_r|done|by rewrite andb_false_r]. }
    rewrite (save_call this force σ Hgo). fold f. rewrite Hrej. by eexists.
  - intros newPath Hpers Hrej.
    rewrite (rename_persisted this newPath σ Hpers). fold f. rewrite Hrej.
    by eexists.
Qed.

(** X3: once [load()] has fetched the content, the entity is loaded and
    unmodified: a second [load()] without [force] and a [save()] without
    [force] both return at once, with no remote call and no change. *)
Theorem load_settles (this : loc) (force : bool) (σ : Store) (resp : Response) :
  let f := heap σ !!! this in
  isTemporary f = false →
  isLoaded f = false ∨ force = true →
  getUserData api (path f) = Resolved resp →
  status resp = 200 →
  ∃ σ',
    load api this force σ = (Returned this, σ') ∧
    isLoaded (heap σ' !!! this) = true ∧
    isModified (heap σ' !!! this) = false ∧
    load api this false σ' = (Returned this, σ') ∧
    save api this false σ' = (Returned this, σ').
Proof.
  intros f Htemp Hfetch Hresp Hok.
  assert (Hgo : isTemporary f || (negb force && isLoaded f) = false).
  { rewrite Htemp. destruct Hfetch as [->| ->]; [by rewrite andb_false_r|done]. }
  rewrite (load_fetch this force σ Hgo). fold f. rewrite Hresp.
  rewrite bool_decide_eq_false_2 by (by intros ?).
  eexists. split; [reflexivity|].
  set (σ' := logged _ _).
  assert (Hobj : heap σ' !!! this = loaded (text resp) f)
    by (subst σ'; unfold logged, write; by heap_simpl).
  assert (Hl : isLoaded (heap σ' !!! this) = true) by by rewrite Hobj.
  assert (Hm : isModified (heap σ' !!! this) = false).
  { rewrite Hobj. unfold isModified. apply bool_decide_eq_false_2.
    intros Hne. by apply Hne. }
  assert (Ht : isTemporary (heap σ' !!! this) = false) by by rewrite Hobj.
  split; [done|]. split; [done|]. split.
  - apply load_noop. rewrite Hl, Ht. done.
  - apply save_noop. unfold isPersisted. by rewrite Ht, Hm.
Qed.

(** X4: a [save()] that has left the entity persisted settles it: a
    following [save()] without [force] makes no remote call.  That is so
    when the answer carried a metadata object whose size is not -1, and
    when the entity was persisted before.  A temporary entity saved
    against a backend that answers with a bare string stays temporary,
    and the following [save()] sends the content again, with [overwrite]
    still false. *)
Theorem save_settles (this : loc) (force : bool) (σ : Store) (resp : JsonResponse) :
  let f := heap σ !!! this in
  isModified f = true ∨ isTemporary f = true ∨ force = true →
  storeUserData api (path f) (content f) (isPersisted f) = Resolved resp →
  ∃ σ',
    save api this force σ = (Returned this, σ') ∧
    (∀ info, jr_json resp = JsonObject info → fi_size info ≠ -1 →
       save api this false σ' = (Returned this, σ')) ∧
    (∀ s, jr_json resp = JsonString s → isPersisted f = true →
       save api this false σ' = (Returned this, σ')) ∧
    (∀ s, jr_json resp = JsonString s → isTemporary f = true →
       ∃ out σ'',
         save api this false σ' = (out, σ'') ∧
         calls σ'' = calls σ' ++ [StoreUserData (path f) (content f) false]).
Proof.
  intros f Hdirty Hres.
  assert (Hgo : isPersisted f && negb (isModified f) && negb force = false).
  { unfold isPersisted.
    destruct Hdirty as [-> | [-> | ->]];
      [by rewrite andb_false_r|done|by rewrite andb_false_r]. }
  rewrite (save_call this force σ Hgo). fold f. rewrite Hres.
  eexists. split; [reflexivity|].
  set (σ' := logged _ _).
  assert (Hobj : heap σ' !!! this = stored (jr_json resp) f)
    by (subst σ'; unfold logged, write; by heap_simpl).
  assert (Hm : isModified (stored (jr_json resp) f) = false).
  { unfold isModified, stored. apply bool_decide_eq_false_2.
    intros Hne. apply Hne. by destruct (jr_json resp). }
  split; [|split].
  - intros info Hjson Hsize. apply save_noop. rewrite Hobj, Hm.
    unfold isPersisted, isTemporary. rewrite Hjson. cbn.
    by rewrite bool_decide_eq_false_2.
  - intros s Hjson Hpers. apply save_noop. rewrite Hobj, Hm.
    rewrite Hjson. change (isPersisted (stored (JsonString s) f))
      with (isPersisted f). by rewrite Hpers.
  - intros s Hjson Htemp.
    assert (Ht' : isTemporary (heap σ' !!! this) = true)
      by (rewrite Hobj, Hjson; exact Htemp).
    rewrite save_call; rewrite Hobj, Hjson.
    2:{ unfold isPersisted. cbn. unfold isPersisted, isTemporary in *.
        cbn. by rewrite Htemp. }
    change (path (stored (JsonString s) f)) with (path f).
    change (content (stored (JsonString s) f)) with (content f).
    replace (isPersisted (stored (JsonString s) f)) with false
      by (symmetry; by apply temporary_not_persisted).
    destruct (storeUserData api (path f) (content f) false);
      eexists _, _; (split; [reflexivity|done]).
Qed.

(** ** Renaming and saving under a new path *)

(** X5: on a temporary entity two renames in a row leave what the second
    alone leaves, with no remote call; renaming away and back to the
    first path restores the object exactly, the path fields being derived
    from the path. *)
Theorem rename_temporary_composes (this : loc) (p q : string) (σ : Store) :
  let f := heap σ !!! this in
  isTemporary f = true →
  ∃ σ1 σ2 σ3,
    rename getPathDetails api this p σ = (Returned this, σ1) ∧
    rename getPathDetails api this q σ1 = (Returned this, σ2) ∧
    rename getPathDetails api this q σ = (Returned this, σ3) ∧
    σ2 = σ3 ∧
    calls σ2 = calls σ ∧
    (paths_derived f → q = path f → heap σ2 !!! this = f).
Proof.
  intros f Htemp.
  rewrite (rename_temporary this p σ Htemp). fold f.
  eexists _, _, _. split; [reflexivity|].
  rewrite rename_temporary; rewrite write_read; [|exact Htemp].
  split; [reflexivity|].
  rewrite (rename_temporary this q σ Htemp). fold f.
  split; [reflexivity|]. rewrite write_write.
  split; [reflexivity|]. split; [reflexivity|].
  intros (Hd & Hfull & Hname & Hsuf) ->. rewrite write_read.
  unfold set_paths. cbn. rewrite <- Hd, <- Hfull, <- Hname, <- Hsuf.
  by destruct f.
Qed.

Lemma saveAs_persisted_any this newPath σ :
  isTemporary (heap σ !!! this) = false →
  let l := fresh (references σ) in
  let new := newUserFile getPathDetails newPath (now api) (-1) in
  let src := heap (write l new σ) !!! this in
  let t := set_content (content src) new in
  let c := StoreUserData newPath (content src) false in
  saveAs getPathDetails api this newPath σ =
    match storeUserData api newPath (content src) false with
    | Rejected e => (Thrown e, logged c (write l t σ))
    | Resolved resp => (Returned l, logged c (write l (stored (jr_json resp) t) σ))
    end.
Proof.
  intros H l new src t c. unfold saveAs, createTemporary.
  rewrite bind_deref, H, bind_alloc. fold l new.
  rewrite bind_deref. fold src.
  rewrite bind_assign, write_read, write_write. fold t.
  rewrite bind_run, save_call; rewrite write_read.
  2:{ reflexivity. }
  change (path t) with newPath. change (content t) with (content src).
  change (isPersisted t) with false. fold c.
  destruct (storeUserData api newPath (content src) false) as [resp|e].
  - rewrite write_write. reflexivity.
  - reflexivity.
Qed.

(** X6: [saveAs(newPath)] on a persisted entity whose store call resolves
    returns a new object at [newPath] with the content of the receiver and
    no pending modification.  It adopts the size and time of a metadata
    answer, and stays temporary, dated at its creation, after a bare
    string.  The receiver is untouched, and the new object is not put into
    the collection. *)
Theorem saveAs_persisted_result (this : loc) (newPath : string) (σ : Store)
    (resp : JsonResponse) :
  let f := heap σ !!! this in
  isTemporary f = false →
  is_Some (heap σ !! this) →
  storeUserData api newPath (content f) false = Resolved resp →
  ∃ l σ',
    saveAs getPathDetails api this newPath σ = (Returned l, σ') ∧
    (l ∉ references σ) ∧
    heap σ' !! this = heap σ !! this ∧
    userFilesByPath σ' = userFilesByPath σ ∧
    calls σ' = calls σ ++ [StoreUserData newPath (content f) false] ∧
    path (heap σ' !!! l) = newPath ∧
    paths_derived (heap σ' !!! l) ∧
    content (heap σ' !!! l) = content f ∧
    originalContent (heap σ' !!! l) = content f ∧
    isModified (heap σ' !!! l) = false ∧
    (∀ info, jr_json resp = JsonObject info →
       size (heap σ' !!! l) = fi_size info ∧
       lastModified (heap σ' !!! l) = fi_modified info) ∧
    (∀ s, jr_json resp = JsonString s →
       isTemporary (heap σ' !!! l) = true ∧
       lastModified (heap σ' !!! l) = now api).
Proof.
  intros f Hpers Hlive Hres.
  destruct (saveAs_persisted this newPath σ Hpers Hlive) as [Hne ->].
  fold f. rewrite Hres. eexists _, _. split; [reflexivity|].
  split; [apply is_fresh|].
  unfold logged, write. cbn [heap userFilesByPath calls].
  split; [by rewrite lookup_insert_ne|].
  split; [done|]. split; [done|].
  rewrite lookup_total_insert_eq. unfold stored, isModified, paths_derived.
  destruct (jr_json resp) as [s|info]; cbn;
    repeat (split; [done|]);
    (split; [by apply bool_decide_eq_false_2; intros Hn; apply Hn|]);
    split; by intros ? [=]; subst.
Qed.

(** ** What the methods leave alone *)

Lemma writes_one_same this σ : writes_one this σ σ.
Proof. split; [done|]. split; [done|]. by left. Qed.

Lemma writes_one_logged this c σ σ' :
  writes_one this σ σ' → writes_one this σ (logged c σ').
Proof. done. Qed.

Lemma writes_one_this this X σ :
  (paths_derived (heap σ !!! this) → paths_derived X) →
  writes_one this σ (write this X σ).
Proof.
  intros HX. split; [done|]. split; [done|]. right. exists this, X.
  split; [done|]. by left.
Qed.

Lemma writes_one_new this X σ :
  paths_derived X → writes_one this σ (write (fresh (references σ)) X σ).
Proof.
  intros HX. split; [done|]. split; [done|]. right.
  exists (fresh (references σ)), X. split; [done|]. by right.
Qed.

Lemma load_writes_one this force σ :
  ∃ out σ', load api this force σ = (out, σ') ∧ writes_one this σ σ'.
Proof.
  destruct (isTemporary (heap σ !!! this)
            || (negb force && isLoaded (heap σ !!! this))) eqn:Hgo.
  - rewrite (load_noop this force σ Hgo). eexists _, _.
    split; [reflexivity|apply writes_one_same].
  - rewrite (load_fetch this force σ Hgo).
    destruct (getUserData api _) as [resp|e];
      [destruct (bool_decide _)|];
      eexists _, _; (split; [reflexivity|]);
      by apply writes_one_logged, writes_one_this.
Qed.

Lemma save_writes_one this force σ :
  ∃ out σ', save api this force σ = (out, σ') ∧ writes_one this σ σ'.
Proof.
  destruct (isPersisted (heap σ !!! this) && negb (isModified (heap σ !!! this))
            && negb force) eqn:Hgo.
  - rewrite (save_noop this force σ Hgo). eexists _, _.
    split; [reflexivity|apply writes_one_same].
  - rewrite (save_call this force σ Hgo).
    destruct (storeUserData api _ _ _) as [resp|e];
      eexists _, _; (split; [reflexivity|]).
    + apply writes_one_logged, writes_one_this. unfold stored.
      by destruct (jr_json resp).
    + apply writes_one_logged, writes_one_same.
Qed.

Lemma delete_writes_one this σ :
  ∃ out σ', delete_ api this σ = (out, σ') ∧ writes_one this σ σ'.
Proof.
  destruct (isTemporary (heap σ !!! this)) eqn:Htemp.
  - rewrite (delete_noop this σ Htemp). eexists _, _.
    split; [reflexivity|apply writes_one_same].
  - rewrite (delete_call this σ Htemp).
    destruct (deleteUserData api _) as [resp|e];
      [destruct (bool_decide _)|];
      eexists _, _; (split; [reflexivity|]);
      apply writes_one_logged, writes_one_same.
Qed.

Lemma rename_writes_one this newPath σ :
  ∃ out σ', rename getPathDetails api this newPath σ = (out, σ') ∧
            writes_one this σ σ'.
Proof.
  destruct (isTemporary (heap σ !!! this)) eqn:Htemp.
  - rewrite (rename_temporary this newPath σ Htemp). eexists _, _.
    split; [reflexivity|]. by apply writes_one_this.
  - rewrite (rename_persisted this newPath σ Htemp).
    destruct (moveUserData api _ _) as [resp|e];
      [destruct (bool_decide _)|];
      eexists _, _; (split; [reflexivity|]);
      try apply writes_one_logged, writes_one_same.
    apply writes_one_logged, writes_one_this. intros _. unfold moved.
    by destruct (jr_json resp).
Qed.

Lemma saveAs_writes_one this newPath σ :
  ∃ out σ', saveAs getPathDetails api this newPath σ = (out, σ') ∧
            writes_one this σ σ'.
Proof.
  destruct (isTemporary (heap σ !!! this)) eqn:Htemp.
  - rewrite (saveAs_temporary this newPath σ Htemp).
    destruct (storeUserData api _ _ _) as [resp|e];
      eexists _, _; (split; [reflexivity|]);
      apply writes_one_logged, writes_one_this; [|done].
    unfold stored. by destruct (jr_json resp).
  - rewrite (saveAs_persisted_any this newPath σ Htemp).
    destruct (storeUserData api _ _ _) as [resp|e];
      eexists _, _; (split; [reflexivity|]);
      apply writes_one_logged, writes_one_new; [|done].
    unfold stored. by destruct (jr_json resp).
Qed.

Lemma unload_writes_one this σ :
  ∃ out σ', unload this σ = (out, σ') ∧ writes_one this σ σ'.
Proof.
  rewrite unload_run. eexists _, _. split; [reflexivity|].
  by apply writes_one_this.
Qed.

Lemma invoke_writes_one this m σ :
  ∃ out σ', invoke this m σ = (out, σ') ∧ writes_one this σ σ'.
Proof.
  destruct m as [force| |force|newPath| |newPath]; unfold invoke.
  - destruct (load_writes_one this force σ) as (out & σ' & Hrun & Hw).
    rewrite bind_run, Hrun. destruct out; eexists _, _; by split.
  - apply unload_writes_one.
  - destruct (save_writes_one this force σ) as (out & σ' & Hrun & Hw).
    rewrite bind_run, Hrun. destruct out; eexists _, _; by split.
  - destruct (saveAs_writes_one this newPath σ) as (out & σ' & Hrun & Hw).
    rewrite bind_run, Hrun. destruct out; eexists _, _; by split.
  - apply delete_writes_one.
  - destruct (rename_writes_one this newPath σ) as (out & σ' & Hrun & Hw).
    rewrite bind_run, Hrun. destruct out; eexists _, _; by split.
Qed.

(** X7: whatever method is invoked on an entity, and however it ends, the
    collection and the directory set are as before, every other object
    that was live is untouched, and no object is freed; a collection that
    held one live object per key still does.  In particular a renamed
    entity stays under its old key and a deleted one stays in the
    collection. *)
Theorem methods_leave_the_rest (this : loc) (m : Method) (σ : Store) :
  ∃ out σ',
    invoke this m σ = (out, σ') ∧
    framed this σ σ' ∧
    (store_wf σ → store_wf σ').
Proof.
  destruct (invoke_writes_one this m σ) as (out & σ' & Hrun & Hfiles & Hdirs & Hheap).
  exists out, σ'. split; [done|].
  assert (Hframed : framed this σ σ').
  { split; [done|]. split; [done|].
    destruct Hheap as [->|(l & X & -> & Hl)]; [done|]. split.
    - intros l' Hne Hlive. apply lookup_insert_ne.
      destruct Hl as [[-> _]|[-> _]]; [done|].
      intros Heq. by apply (fresh_not_live σ l').
    - intros l' Hlive. rewrite lookup_insert_is_Some'. by right. }
  split; [done|].
  destruct Hframed as (? & _ & _ & Hlive). by apply store_wf_frame.
Qed.

(** X8: the path fields stay derived from the path.  If every live object
    has [directory], [fullFilename], [filename] and [suffix] equal to the
    path details of its [path], so it is after any method invoked on a
    live entity, however the method ends. *)
Theorem methods_keep_paths_derived (this : loc) (m : Method) (σ : Store) :
  all_derived σ →
  is_Some (heap σ !! this) →
  ∃ out σ', invoke this m σ = (out, σ') ∧ all_derived σ'.
Proof.
  intros Hall [f Hf].
  destruct (invoke_writes_one this m σ) as (out & σ' & Hrun & _ & _ & Hheap).
  exists out, σ'. split; [done|]. intros l' g.
  destruct Hheap as [->|(l & X & -> & Hl)]; [by apply Hall|].
  rewrite lookup_insert_Some. intros [[<- <-]|[_ Hg]].
  - destruct Hl as [[_ HX]|[_ HX]]; [|done]. apply HX.
    rewrite (lookup_total_correct _ _ _ Hf). by eapply Hall.
  - by eapply Hall.
Qed.

(** ** The computed views *)

Lemma elem_of_userFiles σ l :
  l ∈ userFiles σ ↔ ∃ p, userFilesByPath σ !! p = Some l.
Proof.
  unfold userFiles. rewrite list_elem_of_fmap. split.
  - intros ([p l'] & -> & Hin). exists p. by apply elem_of_map_to_list.
  - intros [p Hp]. exists (p, l). split; [done|]. by apply elem_of_map_to_list.
Qed.

Lemma unloaded_getters f : unloaded f → isLoaded f = false ∧ isModified f = false.
Proof.
  intros (Hc & Ho & _). unfold isLoaded, isModified. rewrite Hc, Ho.
  split; apply bool_decide_eq_false_2; by intros H; apply H.
Qed.

Lemma created_unloaded e : unloaded (created e).
Proof. done. Qed.

Lemma synced_listed dir entries σ p l :
  userFilesByPath (synced dir entries σ) !! p = Some l →
  ∃ e, e ∈ fileEntries entries ∧ e_path e = p.
Proof.
  rewrite synced_files. destruct (somePath _ p) eqn:Hsome; [|done].
  intros _. apply somePath_true, list_elem_of_fmap in Hsome as (e & -> & He).
  by exists e.
Qed.

Lemma synced_unloaded dir entries σ p l :
  userFilesByPath (synced dir entries σ) !! p = Some l →
  unloaded (heap (synced dir entries σ) !!! l).
Proof.
  intros Hp. destruct (synced_listed _ _ _ _ _ Hp) as (e & He & <-).
  destruct (userFilesByPath σ !! e_path e) as [l0|] eqn:H0.
  - pose proof (synced_kept dir entries σ e l0 He H0) as Hk.
    rewrite Hp in Hk. injection Hk as ->.
    rewrite (synced_existing dir entries σ _ _ H0).
    apply (applied_spec (λ _, True)). right.
    intros Hnil.
    assert (e ∈ entriesOn σ l0 (fileEntries entries)) as Hin
      by (by apply list_elem_of_filter).
    rewrite Hnil in Hin. by apply not_elem_of_nil in Hin.
  - destruct (synced_new dir entries σ _ _ H0 Hp) as (_ & e' & es & _ & ->).
    apply (applied_spec (λ _, True)). left. apply created_unloaded.
Qed.

(** X9: after a successful [syncFiles] no file of the collection holds
    cached content: [loadedFiles] and [modifiedFiles] are empty, whatever
    was loaded or edited before, and [userFiles] has one element per
    distinct path of a listed file. *)
Theorem sync_leaves_nothing_loaded (dir : string) (entries : list Entry)
    (σ : Store) :
  listUserDataV2 api dir = Resolved entries →
  ∃ σ',
    syncFiles getPathDetails api dir σ = (Returned (), σ') ∧
    loadedFiles σ' = [] ∧
    modifiedFiles σ' = [] ∧
    (∀ l, l ∈ userFiles σ' → unloaded (heap σ' !!! l)) ∧
    length (userFiles σ') = length (remove_dups (e_path <$> fileEntries entries)).
Proof.
  intros Hres. rewrite syncFiles_run, Hres. eexists. split; [reflexivity|].
  set (σ' := synced dir entries σ).
  assert (Hun : ∀ l, l ∈ userFiles σ' → unloaded (heap σ' !!! l)).
  { intros l [p Hp]%elem_of_userFiles. by eapply synced_unloaded. }
  split; [|split; [|split; [done|]]].
  - apply elem_of_nil_inv. intros l [Hl Hin]%list_elem_of_filter.
    apply Hun, unloaded_getters in Hin as [Hld _]. congruence.
  - apply elem_of_nil_inv. intros l [Hl Hin]%list_elem_of_filter.
    apply Hun, unloaded_getters in Hin as [_ Hmod]. congruence.
  - subst σ'. unfold userFiles. rewrite length_fmap, length_map_to_list.
    rewrite <- (size_dom (D := gset string)), (synced_dom dir entries σ).
    rewrite <- (size_list_to_set (C := gset string) (remove_dups _))
      by apply NoDup_remove_dups.
    f_equal. apply set_eq. intros p.
    by rewrite !elem_of_list_to_set, elem_of_remove_dups.
Qed.

Lemma views_logged c σ :
  userFiles (logged c σ) = userFiles σ ∧
  loadedFiles (logged c σ) = loadedFiles σ ∧
  modifiedFiles (logged c σ) = modifiedFiles σ.
Proof. done. Qed.

Lemma views_write l X σ :
  userFiles (write l X σ) = userFiles σ ∧
  (∀ l', l' ∈ loadedFiles (write l X σ) ↔
     l' ∈ userFiles σ ∧
     isLoaded (if decide (l' = l) then X else heap σ !!! l') = true) ∧
  (∀ l', l' ∈ modifiedFiles (write l X σ) ↔
     l' ∈ userFiles σ ∧
     isModified (if decide (l' = l) then X else heap σ !!! l') = true).
Proof.
  split; [done|].
  split; intros l'; unfold loadedFiles, modifiedFiles;
    rewrite list_elem_of_filter;
    change (userFiles (write l X σ)) with (userFiles σ);
    (destruct (decide (l' = l)) as [->|Hne];
      [rewrite write_read|rewrite write_read_ne by done]); tauto.
Qed.

Lemma views_write_others this X σ l :
  l ≠ this →
  (l ∈ loadedFiles (write this X σ) ↔ l ∈ loadedFiles σ) ∧
  (l ∈ modifiedFiles (write this X σ) ↔ l ∈ modifiedFiles σ).
Proof.
  intros Hne. destruct (views_write this X σ) as (_ & Hl & Hm).
  rewrite Hl, Hm. rewrite decide_False by done.
  unfold loadedFiles, modifiedFiles. rewrite !list_elem_of_filter. tauto.
Qed.

(** X10: the views follow the cache of an entity of the collection.
    After [unload()] the entity is in neither [loadedFiles] nor
    [modifiedFiles]; after a [load()] that fetched with status 200 it is
    in [loadedFiles] and not in [modifiedFiles].  Either way [userFiles]
    and the membership of every other entity are as before. *)
Theorem views_follow_the_cache (this : loc) (σ : Store) :
  let f := heap σ !!! this in
  this ∈ userFiles σ →
  (∃ σ',
     unload this σ = (Returned (), σ') ∧
     userFiles σ' = userFiles σ ∧
     (this ∉ loadedFiles σ') ∧
     (this ∉ modifiedFiles σ') ∧
     (∀ l, l ≠ this →
        (l ∈ loadedFiles σ' ↔ l ∈ loadedFiles σ) ∧
        (l ∈ modifiedFiles σ' ↔ l ∈ modifiedFiles σ))) ∧
  (∀ force resp,
     isTemporary f = false →
     isLoaded f = false ∨ force = true →
     getUserData api (path f) = Resolved resp →
     status resp = 200 →
     ∃ σ',
       load api this force σ = (Returned this, σ') ∧
       userFiles σ' = userFiles σ ∧
       this ∈ loadedFiles σ' ∧
       (this ∉ modifiedFiles σ') ∧
       (∀ l, l ≠ this →
          (l ∈ loadedFiles σ' ↔ l ∈ loadedFiles σ) ∧
          (l ∈ modifiedFiles σ' ↔ l ∈ modifiedFiles σ))).
Proof.
  intros f Hin. split.
  - rewrite unload_run. fold f. eexists. split; [reflexivity|].
    destruct (views_write this (cleared f) σ) as (Hu & Hl & Hm).
    assert (unloaded (cleared f)) as [Hld Hmod]%unloaded_getters by done.
    split; [done|]. rewrite Hl, Hm, decide_True by done.
    split; [intros [_ ?]; congruence|]. split; [intros [_ ?]; congruence|].
    intros l Hne. by apply views_write_others.
  - intros force resp Htemp Hgo Hres Hok.
    rewrite load_fetch; fold f.
    2:{ rewrite Htemp. destruct Hgo as [->| ->]; [|done].
        by rewrite andb_false_r. }
    rewrite Hres, bool_decide_eq_false_2 by (by intros Hn; apply Hn).
    eexists. split; [reflexivity|].
    destruct (views_logged (GetUserData (path f))
                (write this (loaded (text resp) f) σ)) as (-> & -> & ->).
    destruct (views_write this (loaded (text resp) f) σ) as (Hu & Hl & Hm).
    split; [done|]. rewrite Hl, Hm, decide_True by done.
    split; [split; [done|]; by apply bool_decide_eq_true_2|].
    split.
    + intros [_ Hmod]. apply bool_decide_eq_true_1 in Hmod. by apply Hmod.
    + intros l Hne. by apply views_write_others.
Qed.

(** ** What a sync leaves alone *)

Lemma addOrUpdate_unheld σ e l :
  is_Some (heap σ !! l) →
  (∀ p, userFilesByPath σ !! p ≠ Some l) →
  heap (addOrUpdate σ e) !! l = heap σ !! l ∧
  (∀ p, userFilesByPath (addOrUpdate σ e) !! p ≠ Some l).
Proof.
  intros Hlive Hun. split.
  - unfold addOrUpdate. destruct (userFilesByPath σ !! e_path e) as [l0|] eqn:H0.
    + apply lookup_insert_ne. intros ->. by apply (Hun (e_path e)).
    + apply lookup_insert_ne. intros Heq. by apply (fresh_not_live σ l).
  - intros p. rewrite addOrUpdate_files.
    destruct (userFilesByPath σ !! p) as [l0|] eqn:H0.
    + rewrite <- H0. apply Hun.
    + case_decide; [|done]. intros [= Heq]. by apply (fresh_not_live σ l).
Qed.

Lemma foldl_addOrUpdate_unheld files σ l :
  is_Some (heap σ !! l) →
  (∀ p, userFilesByPath σ !! p ≠ Some l) →
  heap (foldl addOrUpdate σ files) !! l = heap σ !! l.
Proof.
  revert σ. induction files as [|e files IH]; intros σ Hlive Hun; [done|].
  destruct (addOrUpdate_unheld σ e l Hlive Hun) as [Hheap Hun'].
  cbn. rewrite IH; [done| |done]. by rewrite Hheap.
Qed.

(** X11: a successful [syncFiles] makes one remote call, the listing, and
    touches no object outside the collection: an object that is live
    and held under no key is as before.  An object the sync drops from
    the collection stays live, so a caller that kept a reference goes on
    using it. *)
Theorem sync_leaves_the_rest (dir : string) (entries : list Entry) (σ : Store) :
  listUserDataV2 api dir = Resolved entries →
  ∃ σ',
    syncFiles getPathDetails api dir σ = (Returned (), σ') ∧
    calls σ' = calls σ ++ [ListUserDataV2 dir] ∧
    (∀ l, is_Some (heap σ !! l) →
          (∀ p, userFilesByPath σ !! p ≠ Some l) →
          heap σ' !! l = heap σ !! l) ∧
    (∀ l, is_Some (heap σ !! l) → is_Some (heap σ' !! l)).
Proof.
  intros Hres. rewrite syncFiles_run, Hres. eexists. split; [reflexivity|].
  split; [apply synced_calls|]. rewrite synced_heap. split.
  - intros l Hlive Hun. rewrite foldl_addOrUpdate_unheld.
    + by rewrite listed_heap.
    + by rewrite listed_heap.
    + intros p. by rewrite listed_files.
  - intros l Hlive. apply foldl_addOrUpdate_live. by rewrite listed_heap.
Qed.

(** ** Syncing again *)

Lemma settled_snoc g es e v :
  settled g (es ++ [e]) v = default (settled g es v) (g e).
Proof. unfold settled. by rewrite foldl_app. Qed.

(** The entries either leave a field as it is or fix its value. *)
Lemma settled_cases g es :
  (∀ v, settled g es v = v) ∨ (∃ w, ∀ v, settled g es v = w).
Proof.
  induction es as [|e es IH] using rev_ind; [by left|].
  destruct (g e) as [w|] eqn:Hg.
  - right. exists w. intros v. by rewrite settled_snoc, Hg.
  - destruct IH as [IH|[w IH]]; [left|right; exists w]; intros v;
      by rewrite settled_snoc, Hg, IH.
Qed.

Lemma settled_idem g es v : settled g es (settled g es v) = settled g es v.
Proof.
  destruct (settled_cases g es) as [H|[w H]]; by rewrite !H.
Qed.

Lemma settled_default g es e :
  settled g es (default (settled g es (default 0 (g e))) (g e))
    = settled g es (default 0 (g e)).
Proof.
  destruct (settled_cases g es) as [H|[w H]]; rewrite !H; [|done].
  by destruct (g e).
Qed.

Lemma applied_fields e es f :
  applied (e :: es) f =
    cleared (set_size (settled e_size (e :: es) (size f))
               (set_lastModified (settled e_modified (e :: es) (lastModified f)) f)).
Proof.
  revert e f. induction es as [|e' es IH]; intros e f; [done|].
  change (applied (e :: e' :: es) f) with (applied (e' :: es) (updated e f)).
  rewrite IH. by destruct f.
Qed.

Lemma applied_idem es f : es ≠ [] → applied es (applied es f) = applied es f.
Proof.
  destruct es as [|e es]; [done|]. intros _.
  rewrite (applied_fields e es f).
  set (a := settled e_size (e :: es) (size f)).
  set (b := settled e_modified (e :: es) (lastModified f)).
  rewrite applied_fields.
  change (size (cleared (set_size a (set_lastModified b f)))) with a.
  change (lastModified (cleared (set_size a (set_lastModified b f)))) with b.
  unfold a, b. rewrite !settled_idem. by destruct f.
Qed.

Lemma applied_created e es :
  applied es (created e) =
    cleared (set_size (settled e_size es (default 0 (e_size e)))
               (set_lastModified (settled e_modified es (default 0 (e_modified e)))
                  (created e))).
Proof. destruct es as [|e' es]; [done|]. by rewrite applied_fields. Qed.

Lemma applied_created_idem e es :
  applied (e :: es) (applied es (created e)) = applied es (created e).
Proof.
  rewrite applied_fields, applied_created.
  set (a := settled e_size es (default 0 (e_size e))).
  set (b := settled e_modified es (default 0 (e_modified e))).
  change (size (cleared (set_size a (set_lastModified b (created e))))) with a.
  change (lastModified (cleared (set_size a (set_lastModified b (created e)))))
    with b.
  change (settled e_size (e :: es) a) with (settled e_size es (default a (e_size e))).
  change (settled e_modified (e :: es) b)
    with (settled e_modified es (default b (e_modified e))).
  unfold a, b. by rewrite !settled_default.
Qed.


Lemma foldl_addOrUpdate_known files σ :
  (∀ e, e ∈ files → is_Some (userFilesByPath σ !! e_path e)) →
  ∀ l, (∀ p, userFilesByPath σ !! p ≠ Some l) →
       heap (foldl addOrUpdate σ files) !! l = heap σ !! l.
Proof.
  revert σ. induction files as [|e files IH]; intros σ Hknown l Hun; [done|].
  destruct (Hknown e) as [l0 H0]; [apply list_elem_of_here|].
  assert (Hstep : addOrUpdate σ e = write l0 (updated e (heap σ !!! l0)) σ)
    by (unfold addOrUpdate; by rewrite H0).
  cbn. rewrite Hstep, IH.
  - apply lookup_insert_ne. intros ->. by apply (Hun (e_path e)).
  - intros e' He'. apply Hknown. by apply list_elem_of_further.
  - done.
Qed.

Lemma synced_live dir entries σ l :
  is_Some (heap σ !! l) → is_Some (heap (synced dir entries σ) !! l).
Proof.
  intros Hlive. rewrite synced_heap. apply foldl_addOrUpdate_live.
  by rewrite listed_heap.
Qed.

Lemma synced_again dir entries σ p l :
  store_wf σ →
  userFilesByPath (synced dir entries σ) !! p = Some l →
  let σ1 := synced dir entries σ in
  applied (entriesOn σ1 l (fileEntries entries)) (heap σ1 !!! l) = heap σ1 !!! l.
Proof.
  intros Hwf Hp σ1.
  assert (Hwf1 : store_wf σ1) by by apply synced_wf.
  rewrite (entriesOn_entriesAt σ1 p l _ Hwf1 Hp).
  destruct (synced_listed _ _ _ _ _ Hp) as (e & He & <-).
  destruct (userFilesByPath σ !! e_path e) as [l0|] eqn:H0.
  - pose proof (synced_kept dir entries σ e l0 He H0) as Hk.
    rewrite Hp in Hk. injection Hk as ->.
    unfold σ1. rewrite (synced_existing dir entries σ _ _ H0).
    rewrite (entriesOn_entriesAt σ (e_path e) l0 _ Hwf H0).
    apply applied_idem. intros Hnil.
    assert (e ∈ entriesAt (e_path e) (fileEntries entries)) as Hin
      by (by apply entriesAt_elem).
    rewrite Hnil in Hin. by apply not_elem_of_nil in Hin.
  - destruct (synced_new dir entries σ _ _ H0 Hp) as (_ & e' & es & -> & Hheap).
    unfold σ1. rewrite Hheap. apply applied_created_idem.
Qed.

(** X12: syncing twice is syncing once.  When the collection holds one
    live object per key and the listing answers the same entries again,
    the second [syncFiles] leaves every object, the collection and the
    directory set as the first left them. *)
Theorem sync_twice_is_sync_once (dir : string) (entries : list Entry)
    (σ : Store) :
  store_wf σ →
  listUserDataV2 api dir = Resolved entries →
  ∃ σ1 σ2,
    syncFiles getPathDetails api dir σ = (Returned (), σ1) ∧
    syncFiles getPathDetails api dir σ1 = (Returned (), σ2) ∧
    heap σ2 = heap σ1 ∧
    userFilesByPath σ2 = userFilesByPath σ1 ∧
    userDirs σ2 = userDirs σ1.
Proof.
  intros Hwf Hres. rewrite !syncFiles_run, Hres.
  eexists _, _. split; [reflexivity|]. rewrite syncFiles_run, Hres.
  split; [reflexivity|].
  set (σ1 := synced dir entries σ).
  assert (Hwf1 : store_wf σ1) by by apply synced_wf.
  assert (Hfiles : userFilesByPath (synced dir entries σ1) = userFilesByPath σ1).
  { apply map_eq. intros p.
    destruct (userFilesByPath σ1 !! p) as [l|] eqn:Hp.
    - destruct (synced_listed _ _ _ _ _ Hp) as (e & He & <-).
      by apply synced_kept.
    - apply not_elem_of_dom. rewrite synced_dom.
      rewrite <- (synced_dom dir entries σ). by apply not_elem_of_dom. }
  split; [|split; [done|unfold σ1; by rewrite !synced_dirs]].
  apply map_eq. intros l.
  destruct (decide (l ∈ (map_img (userFilesByPath σ1) : gset loc))) as [Hheld|Hun].
  - apply elem_of_map_img in Hheld as [p Hp].
    destruct (proj1 Hwf1 p l Hp) as [f1 Hf1].
    destruct (synced_live dir entries σ1 l (mk_is_Some _ _ Hf1)) as [f2 Hf2].
    rewrite Hf1, Hf2. f_equal.
    rewrite <- (lookup_total_correct _ _ _ Hf2), <- (lookup_total_correct _ _ _ Hf1).
    rewrite (synced_existing dir entries σ1 _ _ Hp).
    by apply (synced_again dir entries σ p l).
  - rewrite synced_heap. rewrite foldl_addOrUpdate_known.
    + by rewrite listed_heap.
    + intros e He. rewrite listed_files. apply elem_of_dom.
      unfold σ1. rewrite synced_dom. apply elem_of_list_to_set.
      apply list_elem_of_fmap. by exists e.
    + intros p Hp. rewrite listed_files in Hp. apply Hun.
      apply elem_of_map_img. by exists p.
Qed.


(** ** The exclusion hook of syncEntitiesV2 *)


















(** ** syncEntities, the sync over the flat listing *)



Lemma flatEntries_files dir listing :
  fileEntries (flatEntries dir listing) = flatEntries dir listing.
Proof.
  induction listing as [|f listing IH]; [done|].
  unfold fileEntries, flatEntries in *. rewrite fmap_cons, filter_cons.
  rewrite decide_True by done. by rewrite IH.
Qed.




(** X16: when the flat listing call rejects, [syncEntities] throws the
    reason and changes nothing, whatever the callbacks are: none of them
    is reached. *)
Theorem legacy_sync_rejected_changes_nothing
    (listFull : string → Settled (list ListedFile)) (dir reason : string)
    (createEntity : ListedFile → Task loc)
    (updateEntity : loc → ListedFile → Task unit)
    (exclude : option loc → Task bool) (σ : Store) :
  listFull dir = Rejected reason →
  syncEntities listFull dir createEntity updateEntity exclude σ
    = (Thrown reason, σ).
Proof.
  intros Hrej. unfold syncEntities. rewrite bind_run. unfold settle.
  by rewrite Hrej.
Qed.







(** ** Path fields through a sync *)

Lemma addOrUpdate_derived σ e :
  store_wf σ → all_derived σ → all_derived (addOrUpdate σ e).
Proof.
  intros [Hlive _] Hall l f. unfold addOrUpdate.
  destruct (userFilesByPath σ !! e_path e) as [l0|] eqn:H0;
    cbn [heap write with_files].
  - rewrite lookup_insert_Some. intros [[<- <-]|[_ Hf]]; [|by eapply Hall].
    destruct (Hlive _ _ H0) as [f0 Hf0]. rewrite (lookup_total_correct _ _ _ Hf0).
    by apply (Hall l0 f0).
  - rewrite lookup_insert_Some. intros [[<- <-]|[_ Hf]]; [done|by eapply Hall].
Qed.

Lemma foldl_addOrUpdate_derived files σ :
  store_wf σ → all_derived σ → all_derived (foldl addOrUpdate σ files).
Proof.
  revert σ. induction files as [|e files IH]; intros σ Hwf Hall; [done|].
  cbn [foldl]. apply IH; [by apply addOrUpdate_wf|by apply addOrUpdate_derived].
Qed.

(** X19: a sync keeps the path fields derived from the path.  On a
    collection that holds one live object per key, if every live object
    has [directory], [fullFilename], [filename] and [suffix] equal to
    the path details of its [path], so it is after a successful
    [syncFiles], for the objects it made and for those it updated. *)
Theorem sync_keeps_paths_derived (dir : string) (entries : list Entry)
    (σ : Store) :
  store_wf σ →
  all_derived σ →
  listUserDataV2 api dir = Resolved entries →
  ∃ σ', syncFiles getPathDetails api dir σ = (Returned (), σ') ∧ all_derived σ'.
Proof.
  intros Hwf Hall Hres. rewrite syncFiles_run, Hres.
  eexists. split; [reflexivity|]. intros l f. rewrite synced_heap.
  apply foldl_addOrUpdate_derived; [by apply listed_wf|].
  intros l' f'. rewrite listed_heap. apply Hall.
Qed.

(** ** Saving a draft under another path *)

(** X20: a draft is saved under a new path by renaming it first.  On a
    temporary entity [rename(q)] followed by [save()] makes one remote
    call, the store of the content under [q] with [overwrite = false],
    and leaves the entity at [q] with no pending modification, whereas
    [saveAs(q)] stores it under its old path and leaves it there. *)
Theorem draft_is_saved_elsewhere_by_rename (this : loc) (q : string)
    (σ : Store) (resp : JsonResponse) :
  let f := heap σ !!! this in
  isTemporary f = true →
  storeUserData api q (content f) false = Resolved resp →
  (∃ σ1 σ2,
     rename getPathDetails api this q σ = (Returned this, σ1) ∧
     save api this false σ1 = (Returned this, σ2) ∧
     calls σ2 = calls σ ++ [StoreUserData q (content f) false] ∧
     path (heap σ2 !!! this) = q ∧
     content (heap σ2 !!! this) = content f ∧
     isModified (heap σ2 !!! this) = false) ∧
  (∃ out σ',
     saveAs getPathDetails api this q σ = (out, σ') ∧
     calls σ' = calls σ ++ [StoreUserData (path f) (content f) false] ∧
     path (heap σ' !!! this) = path f).
Proof.
  intros f Htemp Hres. split.
  - rewrite (rename_temporary this q σ Htemp). fold f.
    eexists _, _. split; [reflexivity|].
    set (g := set_paths q (getPathDetails q) f).
    assert (Hg : isTemporary g = true) by exact Htemp.
    rewrite save_call; rewrite write_read.
    2:{ by rewrite (temporary_not_persisted g Hg). }
    rewrite (temporary_not_persisted g Hg).
    change (path g) with q. change (content g) with (content f).
    rewrite Hres, write_write. split; [reflexivity|]. split; [reflexivity|].
    unfold logged. cbn [heap]. rewrite write_read. unfold stored, isModified.
    destruct (jr_json resp); cbn;
      (split; [done|]); (split; [done|]);
      by apply bool_decide_eq_false_2; intros Hn; apply Hn.
  - rewrite (saveAs_temporary this q σ Htemp). fold f.
    destruct (storeUserData api (path f) (content f) false) as [r|e];
      eexists _, _; (split; [reflexivity|]); (split; [reflexivity|]);
      unfold logged; cbn [heap]; rewrite write_read; [|done].
    unfold stored. by destruct (jr_json r).
Qed.

End Facts.

(** * Runs on concrete inputs *)

(** C3 as stated fails: against a backend that answers a store with a bare
    string, saving a temporary entity succeeds and leaves it temporary. *)
Lemma legacy_save_stays_temporary : ¬ every_successful_save_persists.
Proof.
  intros Hall.
  set (σ' := (save legacyApi 1%positive false (storeOf draftFile)).2).
  assert (Hrun : save legacyApi 1%positive false (storeOf draftFile)
                 = (Returned 1%positive, σ')) by (vm_compute; reflexivity).
  assert (Htemp : isTemporary (heap (storeOf draftFile) !!! 1%positive) = true)
    by (vm_compute; reflexivity).
  pose proof (Hall _ _ _ _ _ Htemp Hrun) as Hpers.
  vm_compute in Hpers. discriminate.
Qed.

(** [load] on a draft, on a file the backend does not have, and on a file
    it has. *)
Lemma load_behaviour_witness :
  load serverApi 1%positive false (storeOf draftFile)
    = (Returned 1%positive, storeOf draftFile) ∧
  (∃ σ', load missingApi 1%positive false (storeOf notesFile)
           = (Thrown "Failed to load file 'notes': 404 Not Found", σ') ∧
         isLoading (heap σ' !!! 1%positive) = true) ∧
  (∃ σ', load serverApi 1%positive false (storeOf notesFile)
           = (Returned 1%positive, σ') ∧
         content (heap σ' !!! 1%positive) = Some "file content" ∧
         isLoading (heap σ' !!! 1%positive) = false).
Proof.
  split; [|split].
  - apply (proj1 (load_behaviour serverApi 1%positive false (storeOf draftFile))).
    left. vm_compute. reflexivity.
  - destruct (proj2 (load_behaviour missingApi 1%positive false (storeOf notesFile)))
      with (resp := mkResponse 404 "Not Found" EmptyString)
      as (out & σ' & Hrun & _ & _ & Hko & _).
    + vm_compute. reflexivity.
    + left. vm_compute. reflexivity.
    + reflexivity.
    + destruct Hko as (Hout & _ & _ & _ & _ & Hloading).
      { cbn. lia. }
      exists σ'. split; [|exact Hloading].
      rewrite Hrun, Hout. vm_compute. reflexivity.
  - destruct (proj2 (load_behaviour serverApi 1%positive false (storeOf notesFile)))
      with (resp := mkResponse 200 "OK" "file content")
      as (out & σ' & Hrun & _ & _ & _ & Hok).
    + vm_compute. reflexivity.
    + left. vm_compute. reflexivity.
    + reflexivity.
    + destruct Hok as (Hout & Hcontent & _ & Hloading & _).
      { reflexivity. }
      exists σ'. split; [by rewrite Hrun, Hout|]. split; [exact Hcontent|exact Hloading].
Defined.

(** [save] on an unmodified persisted file and on a draft. *)
Lemma save_behaviour_witness :
  save serverApi 1%positive false (storeOf notesFile)
    = (Returned 1%positive, storeOf notesFile) ∧
  (∃ σ', save serverApi 1%positive false (storeOf draftFile)
           = (Returned 1%positive, σ') ∧
         calls σ' = [StoreUserData "draft" (Some "hello") false] ∧
         isModified (heap σ' !!! 1%positive) = false).
Proof.
  split.
  - apply (proj1 (save_behaviour serverApi 1%positive false (storeOf notesFile)));
      vm_compute; reflexivity.
  - assert (Hdirty : isModified (heap (storeOf draftFile) !!! 1%positive) = true ∨
                     isTemporary (heap (storeOf draftFile) !!! 1%positive) = true)
      by (right; vm_compute; reflexivity).
    destruct (proj2 (save_behaviour serverApi 1%positive false (storeOf draftFile))
                Hdirty)
      as (out & σ' & Hrun & Hcalls & Hret & Hpost).
    pose proof (Hret (mkJsonResponse 200 "OK" (JsonObject (mkFullInfo 456 200)))
                  eq_refl) as Hout.
    destruct (Hpost 1%positive Hout) as (_ & _ & _ & Hmod).
    exists σ'. split; [by rewrite Hrun, Hout|]. split; [exact Hcalls|exact Hmod].
Defined.

(** [rename] on a draft, on a file the backend does not have, and on a
    file whose move is answered with [{modified: 456, size: 200}]. *)
Lemma rename_behaviour_witness :
  (∃ σ', rename plainPathDetails serverApi 1%positive "final" (storeOf draftFile)
           = (Returned 1%positive, σ') ∧
         calls σ' = [] ∧
         path (heap σ' !!! 1%positive) = "final" ∧
         size (heap σ' !!! 1%positive) = -1) ∧
  (∃ σ', rename plainPathDetails missingApi 1%positive "final" (storeOf notesFile)
           = (Thrown "Failed to rename file 'notes': 404 Not Found", σ') ∧
         path (heap σ' !!! 1%positive) = "notes") ∧
  (∃ σ', rename plainPathDetails serverApi 1%positive "final" (storeOf notesFile)
           = (Returned 1%positive, σ') ∧
         calls σ' = [MoveUserData "notes" "final"] ∧
         path (heap σ' !!! 1%positive) = "final" ∧
         lastModified (heap σ' !!! 1%positive) = 456 ∧
         size (heap σ' !!! 1%positive) = 200).
Proof.
  assert (Htemp : isTemporary (heap (storeOf draftFile) !!! 1%positive) = true)
    by (vm_compute; reflexivity).
  assert (Hpers : isTemporary (heap (storeOf notesFile) !!! 1%positive) = false)
    by (vm_compute; reflexivity).
  split; [|split].
  - destruct (proj1 (rename_behaviour plainPathDetails serverApi 1%positive "final"
                       (storeOf draftFile)) Htemp)
      as (σ' & Hrun & Hcalls & Hobj).
    exists σ'. split; [exact Hrun|]. split; [exact Hcalls|]. by rewrite Hobj.
  - destruct (proj2 (rename_behaviour plainPathDetails missingApi 1%positive "final"
                       (storeOf notesFile)) Hpers
                (mkJsonResponse 404 "Not Found" (JsonString EmptyString)) eq_refl)
      as (out & σ' & Hrun & _ & Hko & _).
    assert (Hstatus : (404 : Z) ≠ 200) by lia.
    destruct (Hko Hstatus) as (Hout & _ & _ & _ & Hheap).
    exists σ'. split; [|by rewrite Hheap].
    rewrite Hrun, Hout. vm_compute. reflexivity.
  - destruct (proj2 (rename_behaviour plainPathDetails serverApi 1%positive "final"
                       (storeOf notesFile)) Hpers
                (mkJsonResponse 200 "OK" (JsonObject (mkFullInfo 456 200))) eq_refl)
      as (out & σ' & Hrun & Hcalls & _ & Hok).
    destruct (Hok eq_refl) as (Hout & Hobj).
    cbn in Hobj. exists σ'. split; [by rewrite Hrun, Hout|].
    split; [exact Hcalls|]. by rewrite Hobj.
Defined.

(** A draft through [load], [unload], [rename] and [delete], then saved
    against a backend without and with [full_info]. *)
Lemma temporary_until_saved_with_metadata_witness :
  (∃ σ', forOf [OpLoad true; OpUnload; OpRename "final"; OpDelete]
           (perform plainPathDetails serverApi 1%positive) (storeOf draftFile)
           = (Returned (), σ') ∧
         size (heap σ' !!! 1%positive) = -1 ∧
         calls σ' = []) ∧
  (∃ σ', save legacyApi 1%positive false (storeOf draftFile)
           = (Returned 1%positive, σ') ∧
         size (heap σ' !!! 1%positive) = -1) ∧
  (∃ σ', save serverApi 1%positive false (storeOf draftFile)
           = (Returned 1%positive, σ') ∧
         size (heap σ' !!! 1%positive) = 200 ∧
         lastModified (heap σ' !!! 1%positive) = 456 ∧
         isPersisted (heap σ' !!! 1%positive) = true).
Proof.
  assert (Htemp : isTemporary (heap (storeOf draftFile) !!! 1%positive) = true)
    by (vm_compute; reflexivity).
  split; [|split].
  - destruct (proj1 (temporary_until_saved_with_metadata plainPathDetails serverApi
                       1%positive (storeOf draftFile)) Htemp)
      as (Hops & _ & _).
    exact (Hops [OpLoad true; OpUnload; OpRename "final"; OpDelete]).
  - destruct (proj1 (temporary_until_saved_with_metadata plainPathDetails legacyApi
                       1%positive (storeOf draftFile)) Htemp)
      as (_ & _ & Hlegacy).
    destruct (Hlegacy false (mkJsonResponse 200 "OK" (JsonString "draft")) "draft"
                eq_refl eq_refl)
      as (σ' & Hrun & Hsize & _ & _).
    exists σ'. split; [exact Hrun|exact Hsize].
  - destruct (proj2 (temporary_until_saved_with_metadata plainPathDetails serverApi
                       1%positive (storeOf draftFile))
                false (mkJsonResponse 200 "OK" (JsonObject (mkFullInfo 456 200)))
                (mkFullInfo 456 200) (or_introl Htemp) eq_refl eq_refl)
      as (σ' & Hrun & Hsize & Hmod & Hpers).
    exists σ'. split; [exact Hrun|]. split; [exact Hsize|]. split; [exact Hmod|].
    apply Hpers. cbn. lia.
Defined.

(** C2: on a temporary entity [saveAs(newPath)] does not use [newPath]:
    the draft at ['draft'] is stored under ['draft'], and the entity it
    returns, the receiver, still has that path and not ['final']. *)
Theorem saveAs_temporary_ignores_newPath :
  ∃ σ', saveAs plainPathDetails serverApi 1%positive "final" (storeOf draftFile)
          = (Returned 1%positive, σ') ∧
        calls σ' = [StoreUserData "draft" (Some "hello") false] ∧
        path (heap σ' !!! 1%positive) = "draft" ∧
        path (heap σ' !!! 1%positive) ≠ "final".
Proof.
  exists (saveAs plainPathDetails serverApi 1%positive "final" (storeOf draftFile)).2.
  vm_compute. repeat split. discriminate.
Qed.

(** A sync against an unreachable backend. *)
Lemma sync_rejected_changes_nothing_witness :
  ∃ σ', syncFiles plainPathDetails offlineApi "root" storeAB = (Thrown "offline", σ') ∧
        heap σ' = heap storeAB ∧
        userFilesByPath σ' = userFilesByPath storeAB ∧
        userDirs σ' = userDirs storeAB.
Proof.
  destruct (sync_rejected_changes_nothing plainPathDetails offlineApi "root" "offline"
              storeAB (createFromEntry plainPathDetails) updateFromEntry
              (λ _, mret false) true eq_refl)
    as (σ' & _ & Hrun & Hheap & Hfiles & Hdirs).
  by exists σ'.
Defined.

(** A sync that lists the directory [sub] while [old] was tracked. *)
Lemma sync_replaces_known_directories_witness :
  ∃ σ', syncFiles plainPathDetails (apiListing listingAC) "root" storeAB
          = (Returned (), σ') ∧
        userDirs σ' = {["sub"]} ∧
        "old" ∉ userDirs σ'.
Proof.
  destruct (sync_replaces_known_directories plainPathDetails (apiListing listingAC)
              "root" listingAC storeAB eq_refl)
    as (σ' & Hrun & Hdirs & _ & Hdropped).
  exists σ'. split; [exact Hrun|]. split.
  - rewrite Hdirs. vm_compute. reflexivity.
  - apply Hdropped.
    + vm_compute. reflexivity.
    + intros e He Htype Hpath. apply list_elem_of_In in He. cbn in He.
      destruct He as [<-|[<-|[<-|[]]]]; discriminate.
Defined.


(** The entry [c], which reports neither size nor modification time. *)
Lemma sync_created_entities_are_persisted_witness :
  ∃ σ', syncFiles plainPathDetails (apiListing listingAC) "root" storeAB
          = (Returned (), σ') ∧
        userFilesByPath σ' !! "c" = Some 3%positive ∧
        size (heap σ' !!! 3%positive) = 0 ∧
        lastModified (heap σ' !!! 3%positive) = 0 ∧
        isTemporary (heap σ' !!! 3%positive) = false ∧
        isPersisted (heap σ' !!! 3%positive) = true.
Proof.
  assert (Hsizes : ∀ e s, e ∈ fileEntries listingAC → e_size e = Some s → s ≠ -1).
  { intros e s He Hs. apply list_elem_of_In in He. cbn in He.
    destruct He as [<-|[<-|[]]]; cbn in Hs; [|discriminate].
    injection Hs as <-. lia. }
  destruct (sync_created_entities_are_persisted plainPathDetails
              (apiListing listingAC) "root" listingAC storeAB eq_refl Hsizes)
    as (σ' & Hrun & Hcreated).
  assert (Hl : userFilesByPath σ' !! "c" = Some 3%positive).
  { apply (f_equal snd) in Hrun. cbn [snd] in Hrun. rewrite <- Hrun.
    vm_compute. reflexivity. }
  destruct (Hcreated "c" 3%positive eq_refl Hl) as (Htemp & Hpers & Hone).
  destruct (Hone entryC eq_refl) as (_ & _ & Hsize & Hmod).
  exists σ'. split; [exact Hrun|]. split; [exact Hl|].
  split; [exact (Hsize eq_refl)|]. split; [exact (Hmod eq_refl)|].
  split; [exact Htemp|exact Hpers].
Defined.

(** C10 as stated fails: a file entry that reports the size -1 is
    materialized as a temporary entity. *)
Lemma sentinel_size_is_materialized_temporary : ¬ every_synced_entity_is_persisted.
Proof.
  intros Hall.
  set (σ' := (syncFiles plainPathDetails (apiListing listingSentinel) "root"
                emptyStore).2).
  assert (Hrun : syncFiles plainPathDetails (apiListing listingSentinel) "root"
                   emptyStore = (Returned (), σ')) by (vm_compute; reflexivity).
  assert (Hl : userFilesByPath σ' !! "ghost" = Some 1%positive)
    by (vm_compute; reflexivity).
  pose proof (Hall plainPathDetails (apiListing listingSentinel) "root"
                listingSentinel emptyStore σ' "ghost" 1%positive
                eq_refl Hrun eq_refl Hl) as Hpers.
  vm_compute in Hpers. discriminate.
Qed.

(** ** Stores that hold one live object per key *)

Lemma store_wf_pair (pa pb : string) (la lb : loc) (fa fb : UserFile)
    (dirs : gset string) (cs : list ApiCall) :
  pa ≠ pb → la ≠ lb →
  store_wf (mkStore {[la := fa; lb := fb]} {[pa := la; pb := lb]} dirs cs).
Proof.
  intros Hp Hl. split; cbn [heap userFilesByPath].
  - intros p l [[<- <-]|[_ [<- <-]%lookup_singleton_Some]]%lookup_insert_Some.
    + rewrite lookup_insert_eq. by eexists.
    + rewrite lookup_insert_ne, lookup_singleton_eq by done. by eexists.
  - intros p q l
      [[<- <-]|[? [<- <-]%lookup_singleton_Some]]%lookup_insert_Some
      [[<- ?]|[? [<- ?]%lookup_singleton_Some]]%lookup_insert_Some;
      congruence.
Qed.

Lemma store_wf_storeAB : store_wf storeAB.
Proof. by apply store_wf_pair. Qed.


Lemma all_derived_storeOf (f : UserFile) :
  paths_derived plainPathDetails f → all_derived plainPathDetails (storeOf f).
Proof.
  intros Hf l g Hl. unfold storeOf in Hl. cbn [heap] in Hl.
  by apply lookup_singleton_Some in Hl as [_ <-].
Qed.

Lemma all_derived_storeAB : all_derived plainPathDetails storeAB.
Proof.
  intros l f Hl. unfold storeAB in Hl. cbn [heap] in Hl.
  by apply lookup_insert_Some in Hl as [[_ <-]|[_ [_ <-]%lookup_singleton_Some]].
Qed.

(** ** Runs of the methods *)

(** [delete] on a draft, on a file the backend has, and on one it does
    not have. *)
Lemma delete_behaviour_witness :
  delete_ serverApi 1%positive (storeOf draftFile) = (Returned (), storeOf draftFile) ∧
  (∃ σ', delete_ serverApi 1%positive (storeOf notesFile) = (Returned (), σ') ∧
         calls σ' = [DeleteUserData "notes"] ∧
         heap σ' = heap (storeOf notesFile)) ∧
  (∃ σ', delete_ missingApi 1%positive (storeOf notesFile)
           = (Thrown "Failed to delete file 'notes': 404 Not Found", σ') ∧
         heap σ' = heap (storeOf notesFile)).
Proof.
  assert (Htemp : isTemporary (heap (storeOf draftFile) !!! 1%positive) = true)
    by (vm_compute; reflexivity).
  assert (Hpers : isTemporary (heap (storeOf notesFile) !!! 1%positive) = false)
    by (vm_compute; reflexivity).
  split; [|split].
  - exact (proj1 (delete_behaviour serverApi 1%positive (storeOf draftFile)) Htemp).
  - destruct (proj2 (delete_behaviour serverApi 1%positive (storeOf notesFile)) Hpers)
      as (out & σ' & Hrun & Hcalls & Hheap & _ & _ & _ & Hres).
    destruct (Hres (mkResponse 204 "No Content" EmptyString) eq_refl) as [Hok _].
    exists σ'. split; [by rewrite Hrun, (Hok eq_refl)|]. by split.
  - destruct (proj2 (delete_behaviour missingApi 1%positive (storeOf notesFile)) Hpers)
      as (out & σ' & Hrun & _ & Hheap & _ & _ & _ & Hres).
    destruct (Hres (mkResponse 404 "Not Found" EmptyString) eq_refl) as [_ Hko].
    assert (Hstatus : (404 : Z) ≠ 204) by lia.
    destruct (Hko Hstatus) as (Hout & _).
    exists σ'. split; [|exact Hheap].
    rewrite Hrun, Hout. vm_compute. reflexivity.
Defined.

(** [load], [save] and [rename] against a backend that cannot be
    reached. *)
Lemma rejected_call_is_passed_on_witness :
  (∃ σ', load offlineApi 1%positive false (storeOf notesFile) = (Thrown "offline", σ') ∧
         isLoading (heap σ' !!! 1%positive) = true) ∧
  (∃ σ', save offlineApi 1%positive false (storeOf draftFile) = (Thrown "offline", σ') ∧
         heap σ' = heap (storeOf draftFile)) ∧
  (∃ σ', rename plainPathDetails offlineApi 1%positive "final" (storeOf notesFile)
           = (Thrown "offline", σ') ∧
         heap σ' = heap (storeOf notesFile)).
Proof.
  assert (Hpers : isTemporary (heap (storeOf notesFile) !!! 1%positive) = false)
    by (vm_compute; reflexivity).
  assert (Hcold : isLoaded (heap (storeOf notesFile) !!! 1%positive) = false ∨
                  false = true) by (left; vm_compute; reflexivity).
  assert (Hdirty : isModified (heap (storeOf draftFile) !!! 1%positive) = true ∨
                   isTemporary (heap (storeOf draftFile) !!! 1%positive) = true ∨
                   false = true) by (right; left; vm_compute; reflexivity).
  split; [|split].
  - destruct (proj1 (rejected_call_is_passed_on plainPathDetails offlineApi 1%positive
                       (storeOf notesFile) "offline") false Hpers Hcold eq_refl)
      as (σ' & Hrun & Hobj & _).
    exists σ'. split; [exact Hrun|]. by rewrite Hobj.
  - destruct (proj1 (proj2 (rejected_call_is_passed_on plainPathDetails offlineApi
                              1%positive (storeOf draftFile) "offline"))
                false Hdirty eq_refl)
      as (σ' & Hrun & Hheap & _).
    by exists σ'.
  - destruct (proj2 (proj2 (rejected_call_is_passed_on plainPathDetails offlineApi
                              1%positive (storeOf notesFile) "offline"))
                "final" Hpers eq_refl)
      as (σ' & Hrun & Hheap & _).
    by exists σ'.
Defined.

(** A file loaded once: loading and saving it again do nothing. *)
Lemma load_settles_witness :
  ∃ σ', load serverApi 1%positive false (storeOf notesFile) = (Returned 1%positive, σ') ∧
        isLoaded (heap σ' !!! 1%positive) = true ∧
        load serverApi 1%positive false σ' = (Returned 1%positive, σ') ∧
        save serverApi 1%positive false σ' = (Returned 1%positive, σ').
Proof.
  assert (Hpers : isTemporary (heap (storeOf notesFile) !!! 1%positive) = false)
    by (vm_compute; reflexivity).
  assert (Hcold : isLoaded (heap (storeOf notesFile) !!! 1%positive) = false ∨
                  false = true) by (left; vm_compute; reflexivity).
  destruct (load_settles serverApi 1%positive false (storeOf notesFile)
              (mkResponse 200 "OK" "file content") Hpers Hcold eq_refl eq_refl)
    as (σ' & Hrun & Hloaded & _ & Hagain & Hsave).
  by exists σ'.
Defined.

(** A draft saved against a backend with [full_info] is settled; saved
    against one without, the next save stores it again. *)
Lemma save_settles_witness :
  (∃ σ', save serverApi 1%positive false (storeOf draftFile) = (Returned 1%positive, σ') ∧
         save serverApi 1%positive false σ' = (Returned 1%positive, σ')) ∧
  (∃ σ' out σ'',
     save legacyApi 1%positive false (storeOf draftFile) = (Returned 1%positive, σ') ∧
     save legacyApi 1%positive false σ' = (out, σ'') ∧
     calls σ'' = calls σ' ++ [StoreUserData "draft" (Some "hello") false]).
Proof.
  assert (Htemp : isTemporary (heap (storeOf draftFile) !!! 1%positive) = true)
    by (vm_compute; reflexivity).
  assert (Hdirty : isModified (heap (storeOf draftFile) !!! 1%positive) = true ∨
                   isTemporary (heap (storeOf draftFile) !!! 1%positive) = true ∨
                   false = true) by (right; left; vm_compute; reflexivity).
  split.
  - destruct (save_settles serverApi 1%positive false (storeOf draftFile)
                (mkJsonResponse 200 "OK" (JsonObject (mkFullInfo 456 200)))
                Hdirty eq_refl)
      as (σ' & Hrun & Hmeta & _).
    exists σ'. split; [exact Hrun|].
    apply (Hmeta (mkFullInfo 456 200) eq_refl). cbn. lia.
  - destruct (save_settles legacyApi 1%positive false (storeOf draftFile)
                (mkJsonResponse 200 "OK" (JsonString "draft"))
                Hdirty eq_refl)
      as (σ' & Hrun & _ & _ & Hbare).
    destruct (Hbare "draft" eq_refl Htemp) as (out & σ'' & Hrun' & Hcalls).
    by exists σ', out, σ''.
Defined.

(** A draft renamed away and back. *)
Lemma rename_temporary_composes_witness :
  ∃ σ1 σ2,
    rename plainPathDetails serverApi 1%positive "tmp" (storeOf draftFile)
      = (Returned 1%positive, σ1) ∧
    rename plainPathDetails serverApi 1%positive "draft" σ1 = (Returned 1%positive, σ2) ∧
    calls σ2 = [] ∧
    heap σ2 !!! 1%positive = draftFile.
Proof.
  assert (Htemp : isTemporary (heap (storeOf draftFile) !!! 1%positive) = true)
    by (vm_compute; reflexivity).
  destruct (rename_temporary_composes plainPathDetails serverApi 1%positive
              "tmp" "draft" (storeOf draftFile) Htemp)
    as (σ1 & σ2 & σ3 & Hrun1 & Hrun2 & _ & _ & Hcalls & Hback).
  exists σ1, σ2. split; [exact Hrun1|]. split; [exact Hrun2|].
  split; [exact Hcalls|]. apply Hback; [|reflexivity].
  repeat split; reflexivity.
Defined.

(** [saveAs] on a loaded, edited and persisted file. *)
Lemma saveAs_persisted_result_witness :
  ∃ l σ',
    saveAs plainPathDetails serverApi 1%positive "copy" (storeOf fileA)
      = (Returned l, σ') ∧
    l ≠ 1%positive ∧
    heap σ' !! 1%positive = Some fileA ∧
    path (heap σ' !!! l) = "copy" ∧
    content (heap σ' !!! l) = Some "edited" ∧
    isModified (heap σ' !!! l) = false ∧
    size (heap σ' !!! l) = 200.
Proof.
  assert (Hpers : isTemporary (heap (storeOf fileA) !!! 1%positive) = false)
    by (vm_compute; reflexivity).
  assert (Hlive : is_Some (heap (storeOf fileA) !! 1%positive))
    by (exists fileA; reflexivity).
  destruct (saveAs_persisted_result plainPathDetails serverApi 1%positive "copy"
              (storeOf fileA)
              (mkJsonResponse 200 "OK" (JsonObject (mkFullInfo 456 200)))
              Hpers Hlive eq_refl)
    as (l & σ' & Hrun & Hfresh & Hthis & _ & _ & Hpath & _ & Hcontent & _ & Hmod
        & Hmeta & _).
  destruct (Hmeta (mkFullInfo 456 200) eq_refl) as [Hsize _].
  exists l, σ'. split; [exact Hrun|]. split.
  { intros ->. apply Hfresh. apply elem_of_union_l, elem_of_dom. exact Hlive. }
  split; [by rewrite Hthis|]. split; [exact Hpath|].
  split; [by rewrite Hcontent|]. split; [exact Hmod|exact Hsize].
Defined.

(** A rename of a persisted file keeps the path fields derived. *)
Lemma methods_keep_paths_derived_witness :
  ∃ out σ',
    invoke plainPathDetails serverApi 1%positive (MRename "final") (storeOf notesFile)
      = (out, σ') ∧
    all_derived plainPathDetails σ'.
Proof.
  assert (Hall : all_derived plainPathDetails (storeOf notesFile))
    by (apply all_derived_storeOf; repeat split; reflexivity).
  assert (Hlive : is_Some (heap (storeOf notesFile) !! 1%positive))
    by (exists notesFile; reflexivity).
  exact (methods_keep_paths_derived plainPathDetails serverApi 1%positive
           (MRename "final") (storeOf notesFile) Hall Hlive).
Defined.

(** ** Runs of the syncs *)

(** A sync over a collection with a loaded, edited file. *)
Lemma sync_leaves_nothing_loaded_witness :
  loadedFiles storeAB = [1%positive] ∧
  ∃ σ', syncFiles plainPathDetails (apiListing listingAC) EmptyString storeAB
          = (Returned (), σ') ∧
        loadedFiles σ' = [] ∧
        modifiedFiles σ' = [] ∧
        length (userFiles σ') = 2%nat.
Proof.
  split; [vm_compute; reflexivity|].
  destruct (sync_leaves_nothing_loaded plainPathDetails (apiListing listingAC)
              EmptyString listingAC storeAB eq_refl)
    as (σ' & Hrun & Hloaded & Hmod & _ & Hlen).
  exists σ'. split; [exact Hrun|]. split; [exact Hloaded|]. split; [exact Hmod|].
  rewrite Hlen. vm_compute. reflexivity.
Defined.

(** [unload] on the loaded file of a collection, [load] on the other. *)
Lemma views_follow_the_cache_witness :
  (∃ σ', unload 1%positive storeAB = (Returned (), σ') ∧
         (1%positive ∉ loadedFiles σ') ∧ (1%positive ∉ modifiedFiles σ')) ∧
  (∃ σ', load serverApi 2%positive false storeAB = (Returned 2%positive, σ') ∧
         2%positive ∈ loadedFiles σ' ∧ (2%positive ∉ modifiedFiles σ')).
Proof.
  assert (Hin1 : 1%positive ∈ userFiles storeAB)
    by (apply (bool_decide_unpack _); vm_compute; exact I).
  assert (Hin2 : 2%positive ∈ userFiles storeAB)
    by (apply (bool_decide_unpack _); vm_compute; exact I).
  assert (Hpers : isTemporary (heap storeAB !!! 2%positive) = false)
    by (vm_compute; reflexivity).
  assert (Hcold : isLoaded (heap storeAB !!! 2%positive) = false ∨ false = true)
    by (left; vm_compute; reflexivity).
  split.
  - destruct (proj1 (views_follow_the_cache serverApi 1%positive storeAB Hin1))
      as (σ' & Hrun & _ & Hl & Hm & _).
    by exists σ'.
  - destruct (proj2 (views_follow_the_cache serverApi 2%positive storeAB Hin2)
                false (mkResponse 200 "OK" "file content") Hpers Hcold eq_refl eq_refl)
      as (σ' & Hrun & _ & Hl & Hm & _).
    by exists σ'.
Defined.

(** A sync next to an object that no collection holds. *)
Lemma sync_leaves_the_rest_witness :
  ∃ σ', syncFiles plainPathDetails (apiListing listingA) EmptyString (storeOf notesFile)
          = (Returned (), σ') ∧
        calls σ' = [ListUserDataV2 EmptyString] ∧
        heap σ' !! 1%positive = Some notesFile.
Proof.
  destruct (sync_leaves_the_rest plainPathDetails (apiListing listingA)
              EmptyString listingA (storeOf notesFile) eq_refl)
    as (σ' & Hrun & Hcalls & Hrest & _).
  exists σ'. split; [exact Hrun|]. split; [exact Hcalls|].
  rewrite Hrest; [reflexivity|exists notesFile; reflexivity|].
  intros p Hp. vm_compute in Hp. discriminate.
Defined.

(** Two syncs in a row over the same listing. *)
Lemma sync_twice_is_sync_once_witness :
  ∃ σ1 σ2,
    syncFiles plainPathDetails (apiListing listingAC) EmptyString storeAB
      = (Returned (), σ1) ∧
    syncFiles plainPathDetails (apiListing listingAC) EmptyString σ1
      = (Returned (), σ2) ∧
    heap σ2 = heap σ1 ∧
    userFilesByPath σ2 = userFilesByPath σ1 ∧
    userDirs σ2 = userDirs σ1.
Proof.
  exact (sync_twice_is_sync_once plainPathDetails (apiListing listingAC)
           EmptyString listingAC storeAB store_wf_storeAB eq_refl).
Defined.



(** The flat sync against a backend that cannot be reached. *)
Lemma legacy_sync_rejected_changes_nothing_witness :
  syncEntities flatOffline "workflows"
    (λ f, createFromEntry plainPathDetails (entryOf f))
    (λ l f, updateFromEntry l (entryOf f))
    (excludeBy isTemporary onUndefinedThrow) storeAB
  = (Thrown "offline", storeAB).
Proof.
  exact (legacy_sync_rejected_changes_nothing flatOffline "workflows" "offline"
           _ _ _ storeAB eq_refl).
Defined.



(** A sync keeps the path fields of a collection derived. *)
Lemma sync_keeps_paths_derived_witness :
  ∃ σ', syncFiles plainPathDetails (apiListing listingAC) EmptyString storeAB
          = (Returned (), σ') ∧
        all_derived plainPathDetails σ'.
Proof.
  exact (sync_keeps_paths_derived plainPathDetails (apiListing listingAC)
           EmptyString listingAC storeAB store_wf_storeAB all_derived_storeAB
           eq_refl).
Defined.

(** A draft saved under [final], by [rename] then [save] and by
    [saveAs]. *)
Lemma draft_is_saved_elsewhere_by_rename_witness :
  (∃ σ1 σ2,
     rename plainPathDetails serverApi 1%positive "final" (storeOf draftFile)
       = (Returned 1%positive, σ1) ∧
     save serverApi 1%positive false σ1 = (Returned 1%positive, σ2) ∧
     calls σ2 = [StoreUserData "final" (Some "hello") false] ∧
     path (heap σ2 !!! 1%positive) = "final") ∧
  (∃ out σ',
     saveAs plainPathDetails serverApi 1%positive "final" (storeOf draftFile)
       = (out, σ') ∧
     calls σ' = [StoreUserData "draft" (Some "hello") false] ∧
     path (heap σ' !!! 1%positive) = "draft").
Proof.
  assert (Htemp : isTemporary (heap (storeOf draftFile) !!! 1%positive) = true)
    by (vm_compute; reflexivity).
  destruct (draft_is_saved_elsewhere_by_rename plainPathDetails serverApi 1%positive
              "final" (storeOf draftFile)
              (mkJsonResponse 200 "OK" (JsonObject (mkFullInfo 456 200)))
              Htemp eq_refl)
    as [(σ1 & σ2 & Hrename & Hsave & Hcalls & Hpath & _)
        (out & σ' & HsaveAs & Hcalls' & Hpath')].
  split.
  - by exists σ1, σ2.
  - by exists out, σ'.
Defined.
